(** * Crypto-Anomaly-Detection: the labelling pipeline and its neighbours

    A shallow embedding of [src/dataset_construction.py] (price variation,
    anomaly classification, curve shifting, interleaved-anomaly resolution),
    of the file handling of [src/integrate_indicators.py] and of
    [src/data_transformation.py], followed by the properties of the
    specification that were checked against them.

    Numbers are IEEE-754 binary64 values, as in NumPy's [float64]: the
    Standard Library's [spec_float] with precision 53 and maximal exponent
    1024, whose operations round to nearest-even.  Integer label columns are
    [Z].  A pandas [Series] over the default [RangeIndex] is a [list]; row
    labels and positions coincide and are [nat]. *)

From Stdlib Require Import ZArith QArith Qabs SpecFloat Ascii.
From stdpp Require Import base list strings.

(** ** binary64 *)

Module Float64.

Definition float : Type := spec_float.

Definition prec : Z := 53.
Definition emax : Z := 1024.

(** The float nearest to an integer (exact below 2^53). *)
Definition of_Z (z : Z) : float := binary_normalize prec emax z 0 false.

Definition nan : float := S754_nan.
Definition zero : float := S754_zero false.

Definition div : float -> float -> float := SFdiv prec emax.
Definition sub : float -> float -> float := SFsub prec emax.
Definition mul : float -> float -> float := SFmul prec emax.
Definition neg : float -> float := SFopp.

(** [x < y] and [x > y]; both are [false] as soon as one side is NaN. *)
Definition lt (x y : float) : bool := SFltb x y.
Definition gt (x y : float) : bool := SFltb y x.
Definition eqb (x y : float) : bool := SFeqb x y.

Definition isna (x : float) : bool :=
  match x with S754_nan => true | _ => false end.

(** The rational a finite float stands for (0 for the others). *)
Definition to_Q (x : float) : Q :=
  match x with
  | S754_finite s m e =>
      ((if s then -1 else 1) * inject_Z (Z.pos m) * Qpower 2 e)%Q
  | _ => 0%Q
  end.

End Float64.

Import Float64.

(** ** The pandas operations the scripts call *)

Module Pandas.

(** [Series.shift(1)]: every value moves one row down, NaN enters on top. *)
Definition shift_fwd (s : list float) : list float :=
  take (length s) (nan :: s).

(** [Series.shift(-1)]: every value moves one row up, NaN enters at the
    bottom. *)
Definition shift_back (s : list float) : list float :=
  drop 1 s ++ replicate (length s `min` 1) nan.

(** [Series.ffill()]: a missing value takes the last value seen above it;
    leading missing values stay. *)
Fixpoint ffill_from (last : float) (s : list float) : list float :=
  match s with
  | [] => []
  | x :: r =>
      let y := if isna x then last else x in
      y :: ffill_from y r
  end.

Definition ffill (s : list float) : list float := ffill_from nan s.

(** [Series.pct_change()] with its defaults ([periods=1], and the
    forward fill of missing values that precedes the division):
    [data / data.shift(1) - 1]. *)
Definition pct_change (s : list float) : list float :=
  let data := ffill s in
  zip_with (fun a b => sub (div a b) (of_Z 1)) data (shift_fwd data).

(** [df.loc[mask, col] = v] for a boolean mask aligned with the column. *)
Definition mask_assign (mask : list bool) (v : Z) (col : list Z) : list Z :=
  zip_with (fun (m : bool) c => if m then v else c) mask col.

(** [df.loc[start:stop, col] = v] over a [RangeIndex]: a label slice,
    closed at both ends; an empty one when [start > stop]. *)
Definition slice_assign (start stop : Z) (v : Z) (col : list Z) : list Z :=
  imap (fun p c =>
          if bool_decide (start ≤ Z.of_nat p ∧ Z.of_nat p ≤ stop)%Z
          then v else c) col.

End Pandas.

Import Pandas.

(** ** Frames and files *)

Module Frame.

(** A column of a frame, by dtype.  A missing cell of an [object] column is
    [None]; a missing [float64] cell is NaN; [int64] has no missing value. *)
Inductive column : Type :=
| Float64Col (values : list float)
| Int64Col (values : list Z)
| ObjectCol (values : list (option string)).

(** Columns in order, each under its name. *)
Definition DataFrame : Type := list (string * column).

(** [df.columns] *)
Definition columns (df : DataFrame) : list string := fst <$> df.

(** [df[name]]; [None] stands for the [KeyError]. *)
Fixpoint get_column (name : string) (df : DataFrame) : option column :=
  match df with
  | [] => None
  | (n, c) :: rest =>
      if decide (n = name) then Some c else get_column name rest
  end.

(** [df[name] = c]: in place when the column exists, appended otherwise. *)
Fixpoint set_column (name : string) (c : column) (df : DataFrame)
  : DataFrame :=
  match df with
  | [] => [(name, c)]
  | (n, c') :: rest =>
      if decide (n = name) then (n, c) :: rest
      else (n, c') :: set_column name c rest
  end.

(** The values of a numeric column as [float64]; [None] stands for the
    [TypeError] or [ValueError] arithmetic on strings ends in. *)
Definition to_numeric (c : column) : option (list float) :=
  match c with
  | Float64Col v => Some v
  | Int64Col v => Some (of_Z <$> v)
  | ObjectCol _ => None
  end.

(** The operands of [pct_change], a comparison or a product on a column
    as [read_csv] gives it.  On an [object] column that holds a row the
    arithmetic raises; on one without any row (a file with a header and
    nothing else) nothing is computed and nothing raises. *)
Definition arithmetic_values (c : column) : option (list float) :=
  match c with
  | ObjectCol [] => Some []
  | _ => to_numeric c
  end.

(** The column such arithmetic returns: [float64], except that the empty
    result on an [object] column is an [object] column. *)
Definition arithmetic_column (c : column) (v : list float) : column :=
  match c with
  | ObjectCol _ => ObjectCol []
  | _ => Float64Col v
  end.

Definition to_int (c : column) : option (list Z) :=
  match c with
  | Int64Col v => Some v
  | _ => None
  end.

Definition column_length (c : column) : nat :=
  match c with
  | Float64Col v => length v
  | Int64Col v => length v
  | ObjectCol v => length v
  end.

Definition nrows (df : DataFrame) : nat :=
  match df with
  | [] => 0
  | (_, c) :: _ => column_length c
  end.

Definition cell_isna (c : column) (i : nat) : bool :=
  match c with
  | Float64Col v => from_option isna false (v !! i)
  | Int64Col _ => false
  | ObjectCol v => bool_decide (v !! i = Some None)
  end.

(** Row [i] has a missing value in some column. *)
Definition row_isna (df : DataFrame) (i : nat) : bool :=
  existsb (fun nc => cell_isna nc.2 i) df.

(** The rows of a column a boolean mask selects. *)
Fixpoint select_rows {A : Type} (mask : list bool) (v : list A) : list A :=
  match mask, v with
  | m :: ms, x :: xs =>
      if m then x :: select_rows ms xs else select_rows ms xs
  | _, _ => []
  end.

Definition column_select (mask : list bool) (c : column) : column :=
  match c with
  | Float64Col v => Float64Col (select_rows mask v)
  | Int64Col v => Int64Col (select_rows mask v)
  | ObjectCol v => ObjectCol (select_rows mask v)
  end.

(** The mask of the rows [dropna] keeps. *)
Definition notna_rows (df : DataFrame) : list bool :=
  (fun i => negb (row_isna df i)) <$> seq 0 (nrows df).

(** [df.dropna()]: the rows without any missing value. *)
Definition dropna (df : DataFrame) : DataFrame :=
  (fun nc => (nc.1, column_select (notna_rows df) nc.2)) <$> df.

End Frame.

Import Frame.

Module Path.

(** [os.path.basename]: what follows the last ['/']. *)
Fixpoint basename_from (acc path : string) : string :=
  match path with
  | EmptyString => acc
  | String c rest =>
      if Ascii.eqb c "/"%char then basename_from "" rest
      else basename_from (acc +:+ String c "") rest
  end.

Definition basename (path : string) : string := basename_from "" path.

(** [name.split('.')[0]] *)
Fixpoint before_dot (name : string) : string :=
  match name with
  | EmptyString => ""
  | String c rest =>
      if Ascii.eqb c "."%char then "" else String c (before_dot rest)
  end.

(** [sub in s] *)
Definition contains (sub s : string) : bool :=
  match String.index 0 sub s with
  | Some _ => true
  | None => false
  end.

End Path.

Import Path.

(** ** [src/dataset_construction.py]

    Each function of the script copies the frame, reads one column and
    writes one column; it is modelled on those columns.
    [ConstructionStage.process_file] threads them through the frame. *)

Module DatasetConstruction.

Definition Stable : Z := 0.
Definition Upward : Z := 1.
Definition Downward : Z := 2.

(** [df['Price_Variation'] = df['Close'].pct_change() * 100] *)
Definition calculate_price_variation (Close : list float) : list float :=
  (fun x => mul x (of_Z 100)) <$> pct_change Close.

(** The column starts at 0; the upward mask writes 1, then the downward
    mask writes 2 (so a row in both masks ends at 2). *)
Definition label_anomalies (Price_Variation : list float) (threshold : float)
  : list Z :=
  let Anomaly := replicate (length Price_Variation) 0%Z in
  let upward_anomalies :=
    (fun x => gt x threshold) <$> shift_back Price_Variation in
  let Anomaly := mask_assign upward_anomalies 1 Anomaly in
  let downward_anomalies :=
    (fun x => lt x (neg threshold)) <$> shift_back Price_Variation in
  mask_assign downward_anomalies 2 Anomaly.

(** The mask [df['Anomaly'] > 0] at row [i]. *)
Definition is_anomaly (Anomaly : list Z) (i : nat) : bool :=
  from_option (fun x => bool_decide (0 < x)%Z) false (Anomaly !! i).

(** [df.index[df['Anomaly'] > 0].tolist()]: the rows of the mask, in
    ascending order. *)
Definition anomaly_indices (Anomaly : list Z) : list nat :=
  filter (fun i => is_anomaly Anomaly i) (seq 0 (length Anomaly)).

(** One iteration of the loop of [apply_curve_shifting]: the label is
    read from the frame as it is at that moment. *)
Definition shift_step (shift_hours : Z) (Anomaly : list Z) (idx : nat)
  : list Z :=
  match Anomaly !! idx with
  | Some anomaly_label =>
      let start_idx := Z.max 0 (Z.of_nat idx - shift_hours) in
      slice_assign start_idx (Z.of_nat idx) anomaly_label Anomaly
  | None => Anomaly
  end.

Definition apply_curve_shifting (Anomaly : list Z) (shift_hours : Z)
  : list Z :=
  foldl (shift_step shift_hours) Anomaly (anomaly_indices Anomaly).

(** The two nested tests of [handle_interleaved_anomalies] at row [i]: both
    rows non-stable, and different.  [anomaly_series = df['Anomaly']] is
    taken from the copied frame and shares its data (pandas without
    copy-on-write), so the tests read what [df.at[...] = 0] wrote in
    earlier iterations. *)
Definition interleaved (Anomaly : list Z) (i : nat) : bool :=
  match Anomaly !! i, Anomaly !! (i - 1) with
  | Some cur, Some prev =>
      bool_decide (cur ≠ 0%Z) && bool_decide (prev ≠ 0%Z)
      && bool_decide (cur ≠ prev)
  | _, _ => false
  end.

(** One iteration of the loop: [df.at[i] = 0] then [df.at[i-1] = 0]. *)
Definition resolve_step (Anomaly : list Z) (i : nat) : list Z :=
  if interleaved Anomaly i
  then <[i - 1 := 0%Z]> (<[i := 0%Z]> Anomaly)
  else Anomaly.

(** [for i in range(1, len(anomaly_series))] *)
Definition handle_interleaved_anomalies (Anomaly : list Z) : list Z :=
  foldl resolve_step Anomaly (seq 1 (length Anomaly - 1)).

(** The four steps of [process_file], on the [Close] column. *)
Definition label_pipeline (Close : list float) (threshold : float)
           (shift_hours : Z) : list Z :=
  handle_interleaved_anomalies
    (apply_curve_shifting
       (label_anomalies (calculate_price_variation Close) threshold)
       shift_hours).

End DatasetConstruction.

Import DatasetConstruction.

(** *** The file loop of [src/dataset_construction.py] *)

Module ConstructionStage.

(** [process_file] on the table [read_csv] returned; [None] stands for an
    exception, which the function catches and turns into [None].  The time
    columns are never looked at.  A table without rows goes through the
    four steps as any other. *)
Definition process_file (df : DataFrame) (threshold : float)
           (shift_hours : Z) : option DataFrame :=
  Close_column ← get_column "Close" df;
  Close ← arithmetic_values Close_column;
  let df :=
    set_column "Price_Variation"
      (arithmetic_column Close_column (calculate_price_variation Close))
      df in
  Price_Variation ← get_column "Price_Variation" df ≫= arithmetic_values;
  let df :=
    set_column "Anomaly"
      (Int64Col (label_anomalies Price_Variation threshold)) df in
  Anomaly ← get_column "Anomaly" df ≫= to_int;
  let df :=
    set_column "Anomaly"
      (Int64Col (apply_curve_shifting Anomaly shift_hours)) df in
  Anomaly ← get_column "Anomaly" df ≫= to_int;
  Some (set_column "Anomaly"
          (Int64Col (handle_interleaved_anomalies Anomaly)) df).

(** The loop of [main]: the files written, under their names in the output
    folder, in the order of the writes. *)
Fixpoint main (csv_files : list (string * DataFrame)) (threshold : float)
         (shift_hours : Z) : list (string * DataFrame) :=
  match csv_files with
  | [] => []
  | (file_path, df) :: rest =>
      let file_name := basename file_path in
      match process_file df threshold shift_hours with
      | Some df_processed =>
          (file_name, df_processed) :: main rest threshold shift_hours
      | None => main rest threshold shift_hours
      end
  end.

End ConstructionStage.

(** ** [src/integrate_indicators.py] *)

Module IndicatorStage.

Section Stage.

(** [pd.to_datetime] on a column, and everything from [tz_localize] to
    [reset_index] (the [pandas_ta] calls and the joins); [None] when they
    raise. *)
Variable to_datetime : column → option column.
Variable indicators : string → DataFrame → option DataFrame.

(** [None] stands for an exception. Without a time column the frame comes
    back as it is, after a notice. *)
Definition integrate_technical_indicators (df : DataFrame)
  : option DataFrame :=
  if decide ("Datetime" ∈ columns df) then
    c ← get_column "Datetime" df ≫= to_datetime;
    indicators "Datetime" (set_column "Datetime" c df)
  else if decide ("Date" ∈ columns df) then
    c ← get_column "Date" df ≫= to_datetime;
    indicators "Date" (set_column "Date" c df)
  else Some df.

Definition process_file (df : DataFrame) : option DataFrame :=
  integrate_technical_indicators df.

(** The loop of [main].  [df_clean] is assigned only when [process_file]
    returned a frame, and is read in any case: after a failure it still
    holds the frame of the previous file, and on the first file it is
    unbound, which ends the run. *)
Fixpoint main_loop (df_clean : option DataFrame)
         (csv_files : list (string * DataFrame))
  : list (string * DataFrame) :=
  match csv_files with
  | [] => []
  | (file_path, df) :: rest =>
      let file_name := basename file_path in
      let df_clean :=
        match process_file df with
        | Some df_processed => Some (dropna df_processed)
        | None => df_clean
        end in
      match df_clean with
      | Some out => (file_name, out) :: main_loop df_clean rest
      | None => []
      end
  end.

Definition main (csv_files : list (string * DataFrame))
  : list (string * DataFrame) :=
  main_loop None csv_files.

End Stage.

End IndicatorStage.

(** ** [src/data_transformation.py] *)

Module TransformationStage.

Inductive outcome : Type :=
| Saved (df : DataFrame)
| Skipped
| Failed.

Definition exclude_columns_pct : list string :=
  ["Datetime"; "Date"; "Anomaly"; "Volume"].
Definition exclude_columns_scaler : list string :=
  ["Datetime"; "Date"; "Anomaly"].

(** The loop of [compute_percent_variation]: one new column per feature
    column, next to it. *)
Definition add_pct_change (df : DataFrame) (col : string)
  : option DataFrame :=
  v ← get_column col df ≫= to_numeric;
  Some (set_column (col +:+ "_pct_change") (Float64Col (pct_change v)) df).

Definition add_pct_changes (df : DataFrame) (cols : list string)
  : option DataFrame :=
  foldl (fun acc col => df ← acc; add_pct_change df col) (Some df) cols.

Definition compute_percent_variation (df : DataFrame)
           (exclude_columns : list string) : option DataFrame :=
  let cols := filter (fun col => col ∉ exclude_columns) (columns df) in
  dropna <$> add_pct_changes df cols.

Definition is_inf (x : float) : bool :=
  match x with S754_infinity _ => true | _ => false end.

(** The input validation of [fit_transform]: at least one column, at least
    one row, no infinite value (missing values are let through). *)
Definition check_array (n_rows : nat) (X : list (list float)) : bool :=
  bool_decide (X ≠ []) && bool_decide (0 < n_rows)
  && forallb (fun v => negb (existsb is_inf v)) X.

Section Stage.

Variable to_datetime : column → option column.

(** What [RobustScaler] does to one column: centre on the median, divide
    by the interquartile range. *)
Variable robust_scale : list float → list float.

Definition robust_scaling (df : DataFrame) (exclude_columns : list string)
  : option DataFrame :=
  let cols := filter (fun col => col ∉ exclude_columns) (columns df) in
  X ← mapM (fun col => get_column col df ≫= to_numeric) cols;
  if check_array (nrows df) X
  then Some (foldl (fun acc cv =>
                      set_column cv.1 (Float64Col (robust_scale cv.2)) acc)
                   df (zip cols X))
  else None.

(** [process_file] on the table [read_csv] returned. *)
Definition process_file (df : DataFrame) : outcome :=
  let converted :=
    if decide ("Datetime" ∈ columns df) then
      Some (c ← get_column "Datetime" df ≫= to_datetime;
            Some (set_column "Datetime" c df))
    else if decide ("Date" ∈ columns df) then
      Some (c ← get_column "Date" df ≫= to_datetime;
            Some (set_column "Date" c df))
    else None in
  match converted with
  | None => Skipped
  | Some None => Failed
  | Some (Some df) =>
      match compute_percent_variation df exclude_columns_pct with
      | None => Failed
      | Some df =>
          match robust_scaling df exclude_columns_scaler with
          | None => Failed
          | Some df_robust_scaled => Saved df_robust_scaled
          end
      end
  end.

(** The loop of [main]: the files written, in the order of the writes. *)
Fixpoint main (csv_files : list (string * DataFrame))
  : list (string * DataFrame) :=
  match csv_files with
  | [] => []
  | (file_path, df) :: rest =>
      if contains "full_data" file_path then main rest
      else
        match process_file df with
        | Saved df_robust_scaled =>
            let base_filename := before_dot (basename file_path) in
            (base_filename +:+ "_robust_scaled.csv", df_robust_scaled)
            :: main rest
        | _ => main rest
        end
  end.

End Stage.

End TransformationStage.


(** ** [src/dataset_acquisition.py]

    [download_crypto_data] and [main] talk to the market-data service and
    concatenate what it returns; [fill_missing_values] is the part that
    computes. *)

Module AcquisitionStage.

(** [Series.ffill()] for a dtype whose missing values [na] recognises: a
    missing cell takes the last valid value above it, when there is one. *)
Fixpoint ffill_with {A : Type} (na : A → bool) (last : option A)
         (s : list A) : list A :=
  match s with
  | [] => []
  | x :: r =>
      if na x then default x last :: ffill_with na last r
      else x :: ffill_with na (Some x) r
  end.

(** [Series.bfill()]: the same from the bottom up. *)
Definition bfill_with {A : Type} (na : A → bool) (s : list A) : list A :=
  reverse (ffill_with na None (reverse s)).

Definition object_isna (o : option string) : bool :=
  match o with
  | None => true
  | Some _ => false
  end.

(** [df.ffill()] and [df.bfill()] work column by column; an [int64] column
    has nothing to fill. *)
Definition column_ffill (c : column) : column :=
  match c with
  | Float64Col v => Float64Col (ffill_with isna None v)
  | Int64Col v => Int64Col v
  | ObjectCol v => ObjectCol (ffill_with object_isna None v)
  end.

Definition column_bfill (c : column) : column :=
  match c with
  | Float64Col v => Float64Col (bfill_with isna v)
  | Int64Col v => Int64Col v
  | ObjectCol v => ObjectCol (bfill_with object_isna v)
  end.

Definition frame_ffill (data : DataFrame) : DataFrame :=
  (fun nc => (nc.1, column_ffill nc.2)) <$> data.

Definition frame_bfill (data : DataFrame) : DataFrame :=
  (fun nc => (nc.1, column_bfill nc.2)) <$> data.

(** Forward fill, then backward fill for what is still missing on top. *)
Definition fill_missing_values (data : DataFrame) : DataFrame :=
  let data_filled := frame_ffill data in
  let data_filled := frame_bfill data_filled in
  data_filled.

End AcquisitionStage.

(** ** Invariants of the shift loop, and sample data *)

(** What holds of the column once every anomaly position below [k] has been
    processed: rows from [k] on are untouched, and a row holds either its
    original label or the positive label of an original anomaly at most
    [shift_hours] rows further down. *)
Definition shift_inv (Anomaly : list Z) (shift_hours : Z) (k : nat)
           (st : list Z) : Prop :=
  length st = length Anomaly
  ∧ (∀ p : nat, k ≤ p → st !! p = Anomaly !! p)
  ∧ (∀ (p : nat) (v : Z), st !! p = Some v →
       Anomaly !! p = Some v
       ∨ ∃ j : nat, p ≤ j ∧ j < k
                    ∧ (Z.of_nat j - Z.of_nat p ≤ shift_hours)%Z
                    ∧ Anomaly !! j = Some v ∧ (0 < v)%Z).

(** Row [p] lies in the window of an anomaly at row [j]. *)
Definition covers (shift_hours : Z) (j p : nat) : Prop :=
  (Z.max 0 (Z.of_nat j - shift_hours) ≤ Z.of_nat p
   ∧ Z.of_nat p ≤ Z.of_nat j)%Z.

(** Once every anomaly position below [k] has been processed, a row holds
    the label of the last of them whose window covers it, and its own
    label when none does. *)
Definition cover_inv (Anomaly : list Z) (shift_hours : Z) (k : nat)
           (st : list Z) : Prop :=
  length st = length Anomaly
  ∧ (∀ (j p : nat) (label : Z),
       j < k → Anomaly !! j = Some label → (0 < label)%Z →
       covers shift_hours j p →
       (∀ j' : nat, j < j' → j' < k → covers shift_hours j' p →
                    is_anomaly Anomaly j' = false) →
       st !! p = Some label)
  ∧ (∀ p : nat,
       (∀ j : nat, j < k → covers shift_hours j p →
                   is_anomaly Anomaly j = false) →
       st !! p = Anomaly !! p).

(** The series of the worked example: six hourly closes, a threshold of 1%
    and a shift of one hour. *)
Definition scenario_close : list float :=
  of_Z <$> [100; 100; 105; 100; 95; 95]%Z.
Definition scenario_threshold : float := of_Z 1.
Definition scenario_shift_hours : Z := 1.

(** 5.000000000000004, -4.761904761904767 and -5.000000000000004: the
    binary64 results of [(105/100 - 1) * 100], [(100/105 - 1) * 100] and
    [(95/100 - 1) * 100]. *)
Definition up5 : float := S754_finite false 5629499534213125 (-50).
Definition down4_76 : float := S754_finite true 5361428127822025 (-50).
Definition down5 : float := S754_finite true 5629499534213125 (-50).

(** A small table with a time column, for the transformation stage. *)
Definition sample_table : DataFrame :=
  [("Date", ObjectCol [Some "2024-01-01"; Some "2024-01-02"; Some "2024-01-03"]);
   ("Close", Float64Col (of_Z <$> [100; 110; 121]%Z));
   ("Volume", Int64Col [5; 0; 7]%Z);
   ("Anomaly", Int64Col [0; 1; 0]%Z)].

(** ** Series lookups *)

Section SeriesLemmas.

Lemma shift_fwd_length (s : list float) : length (shift_fwd s) = length s.
Proof. unfold shift_fwd. rewrite length_take. simpl. lia. Qed.

Lemma shift_fwd_lookup_0 (s : list float) :
  0 < length s → shift_fwd s !! 0 = Some nan.
Proof.
  intros Hlen. unfold shift_fwd.
  rewrite lookup_take_lt by done. reflexivity.
Qed.

Lemma shift_fwd_lookup_S (s : list float) (i : nat) :
  S i < length s → shift_fwd s !! S i = s !! i.
Proof.
  intros Hlen. unfold shift_fwd.
  rewrite lookup_take_lt by done. reflexivity.
Qed.

Lemma shift_back_length (s : list float) : length (shift_back s) = length s.
Proof.
  unfold shift_back. rewrite length_app, length_drop, length_replicate. lia.
Qed.

(** Row [i] of [shift(-1)] holds row [i + 1], or NaN on the last row. *)
Lemma shift_back_lookup (s : list float) (i : nat) :
  i < length s → shift_back s !! i = Some (default nan (s !! S i)).
Proof.
  intros Hlen. unfold shift_back.
  destruct (decide (S i < length s)) as [Hin | Hout].
  - rewrite lookup_app_l by (rewrite length_drop; lia).
    rewrite lookup_drop. simpl.
    destruct (lookup_lt_is_Some_2 s (S i) Hin) as [x Hx].
    by rewrite Hx.
  - rewrite lookup_app_r by (rewrite length_drop; lia).
    rewrite length_drop.
    rewrite (lookup_ge_None_2 s (S i)) by lia. simpl.
    apply lookup_replicate_2. lia.
Qed.

Lemma ffill_from_populated (last : float) (s : list float) :
  Forall (fun c => isna c = false) s → ffill_from last s = s.
Proof.
  intros Hs. revert last.
  induction Hs as [| x r Hx _ IH]; intros last; simpl; [done |].
  rewrite Hx. by rewrite IH.
Qed.

Lemma ffill_from_length (last : float) (s : list float) :
  length (ffill_from last s) = length s.
Proof.
  revert last. induction s as [| x r IH]; intros last; simpl; [done |].
  by rewrite IH.
Qed.

Lemma pct_change_length (s : list float) :
  length (pct_change s) = length s.
Proof.
  unfold pct_change, ffill.
  rewrite length_zip_with, shift_fwd_length, ffill_from_length. lia.
Qed.

Lemma div_nan_r (x : float) : div x nan = nan.
Proof. by destruct x. Qed.

Lemma sub_nan_l (x : float) : sub nan x = nan.
Proof. done. Qed.

Lemma mul_nan_l (x : float) : mul nan x = nan.
Proof. done. Qed.

(** The first row of a percent change has no row above it. *)
Lemma pct_change_lookup_0 (s : list float) :
  0 < length s → pct_change s !! 0 = Some nan.
Proof.
  intros Hlen. unfold pct_change.
  rewrite lookup_zip_with.
  rewrite shift_fwd_lookup_0
    by (unfold ffill; rewrite ffill_from_length; done).
  destruct (ffill s !! 0) as [x |] eqn:Hx; simpl.
  - by rewrite div_nan_r.
  - apply lookup_ge_None_1 in Hx.
    unfold ffill in Hx. rewrite ffill_from_length in Hx. lia.
Qed.

Lemma pct_change_lookup_S (s : list float) (i : nat) (c p : float) :
  Forall (fun c => isna c = false) s →
  s !! S i = Some c → s !! i = Some p →
  pct_change s !! S i = Some (sub (div c p) (of_Z 1)).
Proof.
  intros Hs Hc Hp. unfold pct_change, ffill.
  rewrite ffill_from_populated by done.
  rewrite lookup_zip_with, Hc. simpl.
  rewrite shift_fwd_lookup_S by (by apply lookup_lt_Some in Hc).
  by rewrite Hp.
Qed.

End SeriesLemmas.

(** ** Price variation and classification *)

Lemma calculate_price_variation_length (Close : list float) :
  length (calculate_price_variation Close) = length Close.
Proof.
  unfold calculate_price_variation.
  by rewrite length_fmap, pct_change_length.
Qed.

(** A value above a positive threshold is not below its opposite. *)
Lemma gt_threshold_not_lt_neg (x threshold : float) :
  gt threshold zero = true → gt x threshold = true →
  lt x (neg threshold) = false.
Proof.
  unfold gt, lt, neg, zero, SFltb.
  destruct threshold as [[] | [] | | [] mt et], x as [[] | [] | | [] mx ex];
    simpl; done.
Qed.

Lemma mask_assign_lookup (mask : list bool) (v : Z) (col : list Z) (i : nat)
      (m : bool) (c : Z) :
  mask !! i = Some m → col !! i = Some c →
  mask_assign mask v col !! i = Some (if m then v else c).
Proof.
  intros Hm Hc. unfold mask_assign.
  by rewrite lookup_zip_with, Hm; simpl; rewrite Hc.
Qed.

(** Row [i] of the classification, for any threshold: the downward mask is
    written last. *)
Lemma label_anomalies_lookup (Price_Variation : list float) (threshold : float)
      (i : nat) :
  i < length Price_Variation →
  label_anomalies Price_Variation threshold !! i =
    Some (let next_variation := default nan (Price_Variation !! S i) in
          if lt next_variation (neg threshold) then Downward
          else if gt next_variation threshold then Upward
          else Stable).
Proof.
  intros Hi. unfold label_anomalies.
  erewrite mask_assign_lookup; [reflexivity | |].
  - rewrite list_lookup_fmap, shift_back_lookup by done. reflexivity.
  - erewrite mask_assign_lookup; [| |by apply lookup_replicate_2].
    + simpl. reflexivity.
    + rewrite list_lookup_fmap, shift_back_lookup by done. reflexivity.
Qed.

Lemma label_anomalies_length (Price_Variation : list float) (threshold : float) :
  length (label_anomalies Price_Variation threshold) = length Price_Variation.
Proof.
  unfold label_anomalies, mask_assign.
  rewrite !length_zip_with, !length_fmap, shift_back_length, length_replicate.
  lia.
Qed.

(** C5. On a populated [Close] column, [calculate_price_variation] yields,
    for every row [i > 0], [(close[i] / close[i-1] - 1) * 100] in binary64
    arithmetic; row 0 holds NaN (the missing value), which is not zero. *)
Theorem price_variation_correct (Close : list float) :
  Forall (fun c => isna c = false) Close →
  length (calculate_price_variation Close) = length Close
  ∧ (0 < length Close →
     calculate_price_variation Close !! 0 = Some nan ∧ eqb nan zero = false)
  ∧ (∀ (i : nat) (cur prev : float),
        Close !! S i = Some cur → Close !! i = Some prev →
        calculate_price_variation Close !! S i
        = Some (mul (sub (div cur prev) (of_Z 1)) (of_Z 100))).
Proof.
  intros Hpop. split_and!.
  - apply calculate_price_variation_length.
  - intros Hlen. split; [| done].
    unfold calculate_price_variation.
    by rewrite list_lookup_fmap, pct_change_lookup_0.
  - intros i cur prev Hcur Hprev.
    unfold calculate_price_variation.
    by rewrite list_lookup_fmap, (pct_change_lookup_S _ _ cur prev).
Qed.

Lemma price_variation_correct_witness :
  let Close := of_Z <$> [100; 105]%Z in
  Forall (fun c => isna c = false) Close
  ∧ calculate_price_variation Close !! 0 = Some nan
  ∧ calculate_price_variation Close !! 1
    = Some (mul (sub (div (of_Z 105) (of_Z 100)) (of_Z 1)) (of_Z 100)).
Proof.
  pose proof (price_variation_correct (of_Z <$> [100; 105]%Z)) as H.
  assert (Hpop : Forall (fun c => isna c = false) (of_Z <$> [100; 105]%Z))
    by (repeat constructor).
  destruct (H Hpop) as (_ & H0 & HS).
  split; [exact Hpop |]. split.
  - apply H0. simpl. lia.
  - apply (HS 0); reflexivity.
Defined.

(** C4. For a positive threshold, [label_anomalies] gives every bar exactly
    one label among Stable, Upward and Downward, decided by the variation of
    the next bar alone: Upward above the threshold, Downward below its
    opposite, Stable otherwise; the last bar, which has no next bar, is
    Stable. *)
Theorem label_anomalies_classification (Price_Variation : list float)
        (threshold : float) (i : nat) :
  gt threshold zero = true →
  i < length Price_Variation →
  let next_variation := default nan (Price_Variation !! S i) in
  ∃ label : Z,
    label_anomalies Price_Variation threshold !! i = Some label
    ∧ (label = Stable ∨ label = Upward ∨ label = Downward)
    ∧ (gt next_variation threshold = true → label = Upward)
    ∧ (lt next_variation (neg threshold) = true → label = Downward)
    ∧ (gt next_variation threshold = false →
       lt next_variation (neg threshold) = false → label = Stable)
    ∧ (S i = length Price_Variation → label = Stable).
Proof.
  intros Hpos Hi next_variation.
  eexists. split; [by apply label_anomalies_lookup |].
  cbv zeta. fold next_variation.
  assert (Hlast : S i = length Price_Variation → next_variation = nan).
  { intros Hlast. unfold next_variation.
    by rewrite (lookup_ge_None_2 Price_Variation (S i)) by lia. }
  destruct (gt next_variation threshold) eqn:Hup.
  - rewrite (gt_threshold_not_lt_neg _ _ Hpos Hup).
    split_and!; [by right; left | done | done | done |].
    intros Heq. rewrite (Hlast Heq) in Hup.
    unfold gt in Hup. by destruct threshold.
  - destruct (lt next_variation (neg threshold)) eqn:Hdown.
    + split_and!; [by right; right | done | done | done |].
      intros Heq. by rewrite (Hlast Heq) in Hdown.
    + split_and!; [by left | done | done | done | done].
Qed.

Lemma label_anomalies_classification_witness :
  let Price_Variation := [nan; of_Z 0; of_Z 5; of_Z (-5)] in
  gt (of_Z 1) zero = true
  ∧ label_anomalies Price_Variation (of_Z 1) !! 1 = Some Upward
  ∧ label_anomalies Price_Variation (of_Z 1) !! 2 = Some Downward.
Proof.
  assert (Hpos : gt (of_Z 1) zero = true) by reflexivity.
  split; [exact Hpos |]. split.
  - destruct (label_anomalies_classification
                [nan; of_Z 0; of_Z 5; of_Z (-5)] (of_Z 1) 1 Hpos)
      as (label & Hlab & _ & Hup & _); [simpl; lia |].
    rewrite Hlab. f_equal. apply Hup. reflexivity.
  - destruct (label_anomalies_classification
                [nan; of_Z 0; of_Z 5; of_Z (-5)] (of_Z 1) 2 Hpos)
      as (label & Hlab & _ & _ & Hdown & _); [simpl; lia |].
    rewrite Hlab. f_equal. apply Hdown. reflexivity.
Defined.

(** ** Curve shifting *)

Lemma slice_assign_length (start stop v : Z) (col : list Z) :
  length (slice_assign start stop v col) = length col.
Proof. apply length_imap. Qed.

Lemma slice_assign_lookup (start stop v : Z) (col : list Z) (p : nat) (c : Z) :
  col !! p = Some c →
  slice_assign start stop v col !! p
  = Some (if bool_decide (start ≤ Z.of_nat p ∧ Z.of_nat p ≤ stop)%Z
          then v else c).
Proof.
  intros Hc. unfold slice_assign. by rewrite list_lookup_imap, Hc.
Qed.

(** Writing into a slice what it already holds changes nothing. *)
Lemma slice_assign_same (start stop v : Z) (col : list Z) :
  (∀ p : nat, (start ≤ Z.of_nat p ∧ Z.of_nat p ≤ stop)%Z →
              p < length col → col !! p = Some v) →
  slice_assign start stop v col = col.
Proof.
  intros Hsame. apply list_eq. intros p.
  destruct (col !! p) as [c |] eqn:Hc.
  - rewrite (slice_assign_lookup _ _ _ _ _ c Hc).
    case_bool_decide as Hin; [| done].
    rewrite <- Hc. symmetry. apply Hsame; [done |].
    by apply lookup_lt_Some in Hc.
  - apply lookup_ge_None. rewrite slice_assign_length.
    by apply lookup_ge_None in Hc.
Qed.

(** The window of an anomaly at [idx] is the closed range
    [max(0, idx - shift_hours) .. idx]. *)
Lemma shift_step_lookup (shift_hours : Z) (st : list Z) (idx p : nat)
      (label c : Z) :
  st !! idx = Some label → st !! p = Some c →
  shift_step shift_hours st idx !! p
  = Some (if bool_decide (Z.max 0 (Z.of_nat idx - shift_hours) ≤ Z.of_nat p
                          ∧ Z.of_nat p ≤ Z.of_nat idx)%Z
          then label else c).
Proof.
  intros Hidx Hp. unfold shift_step. rewrite Hidx.
  by apply slice_assign_lookup.
Qed.

Lemma shift_step_length (shift_hours : Z) (st : list Z) (idx : nat) :
  length (shift_step shift_hours st idx) = length st.
Proof.
  unfold shift_step. destruct (st !! idx); [| done].
  apply slice_assign_length.
Qed.

(** With no hours to shift, or a negative number of them, an iteration
    leaves the column as it is. *)
Lemma shift_step_nonpositive (shift_hours : Z) (st : list Z) (idx : nat) :
  (shift_hours ≤ 0)%Z → shift_step shift_hours st idx = st.
Proof.
  intros Hs. unfold shift_step.
  destruct (st !! idx) as [label |] eqn:Hidx; [| done].
  apply slice_assign_same. intros p Hin _.
  assert (p = idx) as -> by lia. done.
Qed.

Section ShiftInvariant.

Variable Anomaly : list Z.
Variable shift_hours : Z.

Lemma shift_inv_init : shift_inv Anomaly shift_hours 0 Anomaly.
Proof. split_and!; [done | done |]. intros p v Hp. by left. Qed.

Lemma shift_inv_skip (k : nat) (st : list Z) :
  shift_inv Anomaly shift_hours k st → shift_inv Anomaly shift_hours (S k) st.
Proof.
  intros (Hlen & Hrest & Hsrc). split_and!; [done | |].
  - intros p Hp. apply Hrest. lia.
  - intros p v Hp. destruct (Hsrc p v Hp) as [Hl | (j & ? & ? & ? & ? & ?)].
    + by left.
    + right. exists j. split_and!; [done | lia | done | done | done].
Qed.

Lemma shift_inv_step (k : nat) (st : list Z) :
  is_anomaly Anomaly k = true → shift_inv Anomaly shift_hours k st →
  shift_inv Anomaly shift_hours (S k) (shift_step shift_hours st k).
Proof.
  intros Hk (Hlen & Hrest & Hsrc).
  unfold is_anomaly in Hk.
  destruct (Anomaly !! k) as [label |] eqn:Hlabel; [| done].
  simpl in Hk. apply bool_decide_eq_true in Hk.
  assert (Hcur : st !! k = Some label) by (rewrite Hrest; done).
  split_and!.
  - by rewrite shift_step_length.
  - intros p Hp.
    destruct (st !! p) as [c |] eqn:Hc.
    + rewrite (shift_step_lookup _ _ _ _ label c Hcur Hc).
      rewrite bool_decide_eq_false_2 by lia.
      rewrite <- Hc. apply Hrest. lia.
    + rewrite <- Hrest by lia. rewrite Hc.
      apply lookup_ge_None. rewrite shift_step_length.
      by apply lookup_ge_None in Hc.
  - intros p v Hp.
    destruct (st !! p) as [c |] eqn:Hc.
    + rewrite (shift_step_lookup _ _ _ _ label c Hcur Hc) in Hp.
      case_bool_decide as Hin.
      * injection Hp as <-. right. exists k.
        split_and!; [lia | lia | lia | done | done].
      * injection Hp as <-.
        destruct (Hsrc p c Hc) as [Hl | (j & ? & ? & ? & ? & ?)].
        -- by left.
        -- right. exists j. split_and!; [done | lia | done | done | done].
    + apply lookup_lt_Some in Hp. rewrite shift_step_length in Hp.
      apply lookup_ge_None in Hc. lia.
Qed.

Lemma shift_inv_range (m k : nat) (st : list Z) :
  shift_inv Anomaly shift_hours k st →
  shift_inv Anomaly shift_hours (k + m)
    (foldl (shift_step shift_hours) st
       (filter (fun i => is_anomaly Anomaly i) (seq k m))).
Proof.
  revert k st. induction m as [| m IH]; intros k st Hinv.
  - simpl. by rewrite Nat.add_0_r.
  - simpl seq. rewrite filter_cons.
    replace (k + S m) with (S k + m) by lia.
    destruct (decide (is_anomaly Anomaly k)) as [Hk | Hk].
    + simpl. apply IH. apply shift_inv_step; [| done].
      by apply Is_true_true.
    + apply IH. by apply shift_inv_skip.
Qed.

Lemma apply_curve_shifting_inv :
  shift_inv Anomaly shift_hours (length Anomaly)
    (apply_curve_shifting Anomaly shift_hours).
Proof.
  unfold apply_curve_shifting, anomaly_indices.
  apply (shift_inv_range (length Anomaly) 0 Anomaly shift_inv_init).
Qed.

End ShiftInvariant.

Section ShiftCoverage.

Variable Anomaly : list Z.
Variable shift_hours : Z.

Lemma is_anomaly_true (j : nat) (label : Z) :
  Anomaly !! j = Some label → (0 < label)%Z → is_anomaly Anomaly j = true.
Proof.
  intros Hj Hpos. unfold is_anomaly. rewrite Hj. simpl.
  by apply bool_decide_eq_true.
Qed.

Lemma cover_inv_init : cover_inv Anomaly shift_hours 0 Anomaly.
Proof. split_and!; [done | | done]. intros j p label Hj. lia. Qed.

Lemma cover_inv_skip (k : nat) (st : list Z) :
  is_anomaly Anomaly k = false →
  cover_inv Anomaly shift_hours k st →
  cover_inv Anomaly shift_hours (S k) st.
Proof.
  intros Hk (Hlen & Hlast & Hnone). split_and!; [done | |].
  - intros j p label Hj Hlabel Hpos Hcov Hlater.
    destruct (decide (j = k)) as [-> | Hne].
    + rewrite (is_anomaly_true k label Hlabel Hpos) in Hk. done.
    + apply (Hlast j p label); [lia | done | done | done |].
      intros j' ? ? ?. apply Hlater; [done | lia | done].
  - intros p Hp. apply Hnone. intros j ? ?. apply Hp; [lia | done].
Qed.

Lemma cover_inv_step (k : nat) (st : list Z) :
  is_anomaly Anomaly k = true → cover_inv Anomaly shift_hours k st →
  cover_inv Anomaly shift_hours (S k) (shift_step shift_hours st k).
Proof.
  intros Hk (Hlen & Hlast & Hnone).
  pose proof Hk as Hk'. unfold is_anomaly in Hk'.
  destruct (Anomaly !! k) as [lk |] eqn:Hlk; [| done].
  assert (Hcur : st !! k = Some lk).
  { rewrite Hnone; [done |]. intros j Hj [_ Hcov]. lia. }
  assert (Hstep : ∀ p : nat, p < length Anomaly →
            shift_step shift_hours st k !! p
            = if bool_decide (covers shift_hours k p) then Some lk else st !! p).
  { intros p Hp.
    destruct (lookup_lt_is_Some_2 st p) as [c Hc]; [lia |].
    rewrite (shift_step_lookup _ _ _ _ lk c Hcur Hc), Hc.
    unfold covers. by case_bool_decide. }
  assert (Hout : ∀ p : nat, length Anomaly ≤ p →
            shift_step shift_hours st k !! p = None).
  { intros p Hp. apply lookup_ge_None. rewrite shift_step_length. lia. }
  assert (Hklt : k < length Anomaly) by (by apply lookup_lt_Some in Hlk).
  split_and!.
  - by rewrite shift_step_length.
  - intros j p label Hj Hlabel Hpos Hcov Hlater.
    assert (p < length Anomaly).
    { apply lookup_lt_Some in Hlabel. destruct Hcov. lia. }
    rewrite Hstep by done.
    destruct (decide (j = k)) as [-> | Hne].
    + rewrite bool_decide_eq_true_2 by done. congruence.
    + case_bool_decide as Hck.
      * rewrite (Hlater k) in Hk; [done | lia | lia | done].
      * apply (Hlast j p label); [lia | done | done | done |].
        intros j' ? ? ?. apply Hlater; [done | lia | done].
  - intros p Hp.
    destruct (decide (p < length Anomaly)) as [Hin | Hnin].
    + rewrite Hstep by done. case_bool_decide as Hck.
      * rewrite (Hp k) in Hk; [done | lia | done].
      * apply Hnone. intros j ? ?. apply Hp; [lia | done].
    + rewrite Hout by lia. symmetry. apply lookup_ge_None. lia.
Qed.

Lemma cover_inv_range (m k : nat) (st : list Z) :
  cover_inv Anomaly shift_hours k st →
  cover_inv Anomaly shift_hours (k + m)
    (foldl (shift_step shift_hours) st
       (filter (fun i => is_anomaly Anomaly i) (seq k m))).
Proof.
  revert k st. induction m as [| m IH]; intros k st Hinv.
  - simpl. by rewrite Nat.add_0_r.
  - simpl seq. rewrite filter_cons.
    replace (k + S m) with (S k + m) by lia.
    destruct (decide (is_anomaly Anomaly k)) as [Hk | Hk].
    + simpl. apply IH. apply cover_inv_step; [| done].
      by apply Is_true_true.
    + apply IH. apply cover_inv_skip; [| done].
      by destruct (is_anomaly Anomaly k).
Qed.

Lemma apply_curve_shifting_cover :
  cover_inv Anomaly shift_hours (length Anomaly)
    (apply_curve_shifting Anomaly shift_hours).
Proof.
  unfold apply_curve_shifting, anomaly_indices.
  apply (cover_inv_range (length Anomaly) 0 Anomaly cover_inv_init).
Qed.

End ShiftCoverage.

Lemma foldl_shift_step_nonpositive (shift_hours : Z) (st : list Z)
      (idxs : list nat) :
  (shift_hours ≤ 0)%Z → foldl (shift_step shift_hours) st idxs = st.
Proof.
  intros Hs. revert st. induction idxs as [| idx idxs IH]; intros st.
  - done.
  - simpl. rewrite shift_step_nonpositive by done. apply IH.
Qed.

(** C3. After [apply_curve_shifting] with [shift_hours >= 0], every row [i]
    with a non-stable label has a row [j >= i], [j - i <= shift_hours],
    that carried this very label before the shift.  The window written for
    an anomaly at row [j] is the closed range [max(0, j - shift_hours) .. j]:
    one iteration writes exactly these rows, and after the whole pass each
    of them holds the label of [j] unless the window of a later anomaly
    covers it as well. *)
Theorem shift_window_bound (Anomaly : list Z) (shift_hours : Z) :
  (0 ≤ shift_hours)%Z →
  (∀ (i : nat) (label : Z),
      apply_curve_shifting Anomaly shift_hours !! i = Some label →
      label ≠ Stable →
      ∃ j : nat, i ≤ j ∧ (Z.of_nat j - Z.of_nat i ≤ shift_hours)%Z
                 ∧ Anomaly !! j = Some label)
  ∧ (∀ (st : list Z) (j p : nat) (label c : Z),
        st !! j = Some label → st !! p = Some c →
        shift_step shift_hours st j !! p
        = Some (if bool_decide (Z.max 0 (Z.of_nat j - shift_hours) ≤ Z.of_nat p
                                ∧ Z.of_nat p ≤ Z.of_nat j)%Z
                then label else c))
  ∧ (∀ (j p : nat) (label : Z),
        Anomaly !! j = Some label → (0 < label)%Z →
        (Z.max 0 (Z.of_nat j - shift_hours) ≤ Z.of_nat p
         ∧ Z.of_nat p ≤ Z.of_nat j)%Z →
        (∀ j' : nat, j < j' → covers shift_hours j' p →
                     is_anomaly Anomaly j' = false) →
        apply_curve_shifting Anomaly shift_hours !! p = Some label).
Proof.
  intros Hs. split_and!.
  - intros i label Hi Hne.
    destruct (apply_curve_shifting_inv Anomaly shift_hours)
      as (_ & _ & Hsrc).
    destruct (Hsrc i label Hi) as [Hhere | (j & ? & ? & ? & ? & ?)].
    + exists i. split_and!; [done | lia | done].
    + exists j. split_and!; done.
  - intros st j p label c. apply shift_step_lookup.
  - intros j p label Hj Hpos Hcov Hlater.
    destruct (apply_curve_shifting_cover Anomaly shift_hours)
      as (_ & Hlast & _).
    apply (Hlast j p label); [by apply lookup_lt_Some in Hj | done ..|].
    intros j' ? _ ?. by apply Hlater.
Qed.

Lemma shift_window_bound_witness :
  (0 ≤ 1)%Z
  ∧ apply_curve_shifting [0; 1; 2; 2; 0; 0]%Z 1 !! 0 = Some Upward
  ∧ ∃ j : nat, 0 ≤ j ∧ (Z.of_nat j - Z.of_nat 0 ≤ 1)%Z
               ∧ [0; 1; 2; 2; 0; 0]%Z !! j = Some Upward.
Proof.
  assert (Hs : (0 ≤ 1)%Z) by lia.
  split; [exact Hs |]. split; [reflexivity |].
  destruct (shift_window_bound [0; 1; 2; 2; 0; 0]%Z 1 Hs) as (Hbound & _).
  apply (Hbound 0 Upward); [reflexivity | discriminate].
Defined.

(** C10. [apply_curve_shifting] never writes a Stable label, whatever
    [shift_hours] is: a row that is non-stable before the shift is
    non-stable after it (its polarity may change), and a row that is Stable
    after the shift was Stable before.  With [shift_hours = 0], and with a
    negative [shift_hours] (every window is empty), the column is
    unchanged. *)
Theorem curve_shifting_keeps_anomalies (Anomaly : list Z) (shift_hours : Z) :
  length (apply_curve_shifting Anomaly shift_hours) = length Anomaly
  ∧ (∀ (p : nat) (before : Z),
        Anomaly !! p = Some before → before ≠ Stable →
        ∃ after : Z,
          apply_curve_shifting Anomaly shift_hours !! p = Some after
          ∧ after ≠ Stable)
  ∧ (∀ p : nat,
        apply_curve_shifting Anomaly shift_hours !! p = Some Stable →
        Anomaly !! p = Some Stable)
  ∧ (shift_hours = 0%Z → apply_curve_shifting Anomaly shift_hours = Anomaly)
  ∧ ((shift_hours < 0)%Z →
     apply_curve_shifting Anomaly shift_hours = Anomaly
     ∧ ∀ j p : nat, ¬ covers shift_hours j p).
Proof.
  destruct (apply_curve_shifting_inv Anomaly shift_hours)
    as (Hlen & _ & Hsrc).
  split_and!.
  - done.
  - intros p before Hp Hne.
    destruct (lookup_lt_is_Some_2 (apply_curve_shifting Anomaly shift_hours) p)
      as [after Hafter].
    { rewrite Hlen. by apply lookup_lt_Some in Hp. }
    exists after. split; [done |].
    destruct (Hsrc p after Hafter) as [Hhere | (j & _ & _ & _ & _ & Hpos)].
    + congruence.
    + unfold Stable. lia.
  - intros p Hp.
    destruct (Hsrc p Stable Hp) as [Hhere | (j & _ & _ & _ & _ & Hpos)].
    + done.
    + unfold Stable in Hpos. lia.
  - intros ->. by apply foldl_shift_step_nonpositive.
  - intros Hneg. split.
    + apply foldl_shift_step_nonpositive. lia.
    + intros j p [Hlo Hhi]. lia.
Qed.

(** ** Interleaved anomalies *)

Lemma resolve_step_length (st : list Z) (i : nat) :
  length (resolve_step st i) = length st.
Proof.
  unfold resolve_step. destruct (interleaved st i); [| done].
  by rewrite !length_insert.
Qed.

Lemma interleaved_lookup (st : list Z) (i : nat) :
  interleaved st i = true →
  ∃ cur prev : Z, st !! i = Some cur ∧ st !! (i - 1) = Some prev
                  ∧ cur ≠ 0%Z ∧ prev ≠ 0%Z ∧ cur ≠ prev.
Proof.
  unfold interleaved. intros H.
  destruct (st !! i) as [cur |]; [| done].
  destruct (st !! (i - 1)) as [prev |]; [| done].
  apply andb_prop in H as [H Hd]. apply andb_prop in H as [Hc Hp].
  apply bool_decide_eq_true in Hc, Hp, Hd.
  by exists cur, prev.
Qed.

Lemma interleaved_false (st : list Z) (i : nat) (cur prev : Z) :
  interleaved st i = false →
  st !! i = Some cur → st !! (i - 1) = Some prev →
  ¬ (cur ≠ 0%Z ∧ prev ≠ 0%Z ∧ cur ≠ prev).
Proof.
  unfold interleaved. intros H Hc Hp (Hc0 & Hp0 & Hd).
  rewrite Hc, Hp in H.
  rewrite !bool_decide_eq_true_2 in H by done. done.
Qed.

Lemma interleaved_stable_cur (st : list Z) (i : nat) :
  st !! i = Some 0%Z → interleaved st i = false.
Proof.
  intros H. unfold interleaved. rewrite H.
  by destruct (st !! (i - 1)).
Qed.

Lemma interleaved_stable_prev (st : list Z) (i : nat) :
  st !! (i - 1) = Some 0%Z → interleaved st i = false.
Proof.
  intros H. unfold interleaved. rewrite H.
  destruct (st !! i); [| done].
  by rewrite andb_false_r.
Qed.

Lemma interleaved_ext (st st' : list Z) (i : nat) :
  st' !! i = st !! i → st' !! (i - 1) = st !! (i - 1) →
  interleaved st' i = interleaved st i.
Proof. unfold interleaved. by intros -> ->. Qed.

(** An iteration touches rows [i - 1] and [i] only. *)
Lemma resolve_step_lookup_other (st : list Z) (i p : nat) :
  p ≠ i → p ≠ i - 1 → resolve_step st i !! p = st !! p.
Proof.
  intros Hi Hp. unfold resolve_step. destruct (interleaved st i); [| done].
  by rewrite !list_lookup_insert_ne by done.
Qed.

Lemma resolve_step_conflict (st : list Z) (i : nat) :
  interleaved st i = true →
  resolve_step st i !! i = Some 0%Z ∧ resolve_step st i !! (i - 1) = Some 0%Z.
Proof.
  intros H. unfold resolve_step. rewrite H.
  destruct (interleaved_lookup st i H) as (cur & prev & Hc & Hp & _).
  apply lookup_lt_Some in Hc, Hp.
  split.
  - destruct (decide (i - 1 = i)) as [Heq | Hne].
    + rewrite Heq. apply list_lookup_insert_eq. by rewrite length_insert.
    + rewrite list_lookup_insert_ne by done. by apply list_lookup_insert_eq.
  - apply list_lookup_insert_eq. by rewrite length_insert.
Qed.

Lemma resolve_step_no_conflict (st : list Z) (i : nat) :
  interleaved st i = false → resolve_step st i = st.
Proof. intros H. unfold resolve_step. by rewrite H. Qed.

(** A Stable row stays Stable: the loop writes nothing but 0. *)
Lemma resolve_step_stable (st : list Z) (i p : nat) :
  st !! p = Some 0%Z → resolve_step st i !! p = Some 0%Z.
Proof.
  intros Hp. unfold resolve_step. destruct (interleaved st i); [| done].
  assert (Hlen : p < length st) by (by apply lookup_lt_Some in Hp).
  destruct (decide (p = i - 1)) as [-> | Hne1].
  - apply list_lookup_insert_eq. by rewrite length_insert.
  - rewrite list_lookup_insert_ne by done.
    destruct (decide (p = i)) as [-> | Hne2].
    + by apply list_lookup_insert_eq.
    + by rewrite list_lookup_insert_ne.
Qed.

Lemma foldl_resolve_step_length (st : list Z) (idxs : list nat) :
  length (foldl resolve_step st idxs) = length st.
Proof.
  revert st. induction idxs as [| i idxs IH]; intros st; [done |].
  simpl. by rewrite IH, resolve_step_length.
Qed.

Lemma foldl_resolve_step_stable (st : list Z) (idxs : list nat) (p : nat) :
  st !! p = Some 0%Z → foldl resolve_step st idxs !! p = Some 0%Z.
Proof.
  revert st. induction idxs as [| i idxs IH]; intros st Hp; [done |].
  simpl. apply IH. by apply resolve_step_stable.
Qed.

(** Iterations at rows above [p + 1] leave row [p] alone. *)
Lemma foldl_resolve_step_lookup_below (st : list Z) (idxs : list nat)
      (p : nat) :
  Forall (fun i => p + 1 < i) idxs →
  foldl resolve_step st idxs !! p = st !! p.
Proof.
  intros Hidxs. revert st.
  induction Hidxs as [| i idxs Hi _ IH]; intros st; [done |].
  simpl. rewrite IH. apply resolve_step_lookup_other; lia.
Qed.

(** Iterations at rows below [p] leave row [p] alone. *)
Lemma foldl_resolve_step_lookup_above (st : list Z) (idxs : list nat)
      (p : nat) :
  Forall (fun i => i < p) idxs →
  foldl resolve_step st idxs !! p = st !! p.
Proof.
  intros Hidxs. revert st.
  induction Hidxs as [| i idxs Hi _ IH]; intros st; [done |].
  simpl. rewrite IH. apply resolve_step_lookup_other; lia.
Qed.

Lemma foldl_resolve_step_id (st : list Z) (idxs : list nat) :
  Forall (fun i => interleaved st i = false) idxs →
  foldl resolve_step st idxs = st.
Proof.
  induction 1 as [| i idxs Hi _ IH]; [done |].
  simpl. by rewrite (resolve_step_no_conflict st i Hi).
Qed.

(** Once the pass has gone through rows [1 .. m], none of the pairs it has
    compared is left in conflict. *)
Lemma resolve_prefix_inv (Anomaly : list Z) (m i : nat) :
  1 ≤ i → i ≤ m →
  interleaved (foldl resolve_step Anomaly (seq 1 m)) i = false.
Proof.
  revert i. induction m as [| m IH]; intros i Hlo Hhi; [lia |].
  rewrite seq_S, foldl_app. simpl.
  set (st := foldl resolve_step Anomaly (seq 1 m)) in *.
  destruct (interleaved st (S m)) eqn:Hconf.
  - destruct (resolve_step_conflict st (S m) Hconf) as [Hcur Hprev].
    replace (S m - 1) with m in Hprev by lia.
    destruct (decide (i = S m)) as [-> | Hne1].
    + by apply interleaved_stable_cur.
    + destruct (decide (i = m)) as [-> | Hne2].
      * by apply interleaved_stable_cur.
      * rewrite (interleaved_ext st) by
          (apply resolve_step_lookup_other; lia).
        apply IH; lia.
  - rewrite resolve_step_no_conflict by done.
    destruct (decide (i = S m)) as [-> | Hne]; [done |].
    apply IH; lia.
Qed.

Lemma handle_interleaved_anomalies_length (Anomaly : list Z) :
  length (handle_interleaved_anomalies Anomaly) = length Anomaly.
Proof. apply foldl_resolve_step_length. Qed.

Lemma handle_interleaved_anomalies_resolved (Anomaly : list Z) (i : nat) :
  0 < i → interleaved (handle_interleaved_anomalies Anomaly) i = false.
Proof.
  intros Hi.
  destruct (decide (i ≤ length Anomaly - 1)) as [Hin | Hout].
  - by apply resolve_prefix_inv.
  - unfold interleaved.
    rewrite (lookup_ge_None_2 (handle_interleaved_anomalies Anomaly) i);
      [done |].
    rewrite handle_interleaved_anomalies_length. lia.
Qed.

(** The pass, cut at row [i]: the rows before, row [i], the rows after. *)
Lemma handle_interleaved_anomalies_split (Anomaly : list Z) (i : nat) :
  0 < i → i < length Anomaly →
  handle_interleaved_anomalies Anomaly
  = foldl resolve_step
      (resolve_step (foldl resolve_step Anomaly (seq 1 (i - 1))) i)
      (seq (S i) (length Anomaly - S i)).
Proof.
  intros Hlo Hhi. unfold handle_interleaved_anomalies.
  replace (length Anomaly - 1)
    with ((i - 1) + S (length Anomaly - S i)) by lia.
  rewrite seq_app, foldl_app.
  replace (1 + (i - 1)) with i by lia. reflexivity.
Qed.

(** C6. After [handle_interleaved_anomalies], no row [i > 0] and its
    predecessor hold two different non-stable labels.  A pair found in
    conflict when the pass compares it has both its rows Stable in the
    result. *)
Theorem adjacency_resolved (Anomaly : list Z) :
  let resolved := handle_interleaved_anomalies Anomaly in
  length resolved = length Anomaly
  ∧ (∀ (i : nat) (cur prev : Z),
        0 < i → resolved !! i = Some cur → resolved !! (i - 1) = Some prev →
        ¬ (cur ≠ Stable ∧ prev ≠ Stable ∧ cur ≠ prev))
  ∧ (∀ i : nat,
        0 < i →
        interleaved (foldl resolve_step Anomaly (seq 1 (i - 1))) i = true →
        resolved !! i = Some Stable ∧ resolved !! (i - 1) = Some Stable).
Proof.
  intros resolved. split_and!.
  - apply handle_interleaved_anomalies_length.
  - intros i cur prev Hi Hcur Hprev.
    apply (interleaved_false resolved i); [| done | done].
    by apply handle_interleaved_anomalies_resolved.
  - intros i Hi Hconf.
    destruct (interleaved_lookup _ _ Hconf) as (cur & _ & Hcur & _).
    apply lookup_lt_Some in Hcur.
    rewrite foldl_resolve_step_length in Hcur.
    unfold resolved.
    rewrite (handle_interleaved_anomalies_split Anomaly i Hi Hcur).
    destruct (resolve_step_conflict _ _ Hconf) as [H0 H1].
    split; by apply foldl_resolve_step_stable.
Qed.

(** C7. Running [handle_interleaved_anomalies] on its own output changes
    nothing. *)
Theorem resolution_idempotent (Anomaly : list Z) :
  handle_interleaved_anomalies (handle_interleaved_anomalies Anomaly)
  = handle_interleaved_anomalies Anomaly.
Proof.
  unfold handle_interleaved_anomalies at 1.
  apply foldl_resolve_step_id.
  apply Forall_forall. intros i Hi.
  apply elem_of_seq in Hi.
  apply handle_interleaved_anomalies_resolved. lia.
Qed.

(** ** The worked scenario *)

(** C1, as the code runs it.  The variations are NaN, 0, 5, -4.7619..., -5
    and 0 up to binary64 rounding.  Bar [i] is classified from the
    variation of bar [i + 1], which gives Stable, Upward, Downward,
    Downward, Stable, Stable.  The shift visits the anomaly rows 1, 2, 3 in
    ascending order: the Upward window of row 1 writes rows 0 and 1, then
    the Downward window of row 2 overwrites row 1.  The resolver finds rows
    0 and 1 in conflict and sets both to Stable: the final column is
    [0, 0, 2, 2, 0, 0]. *)
Theorem worked_scenario :
  calculate_price_variation scenario_close
  = [nan; zero; up5; down4_76; down5; zero]
  ∧ (Qabs (to_Q up5 - 5) < 1 # 10 ^ 14)%Q
  ∧ (Qabs (to_Q down4_76 - (-100 # 21)) < 1 # 10 ^ 14)%Q
  ∧ (Qabs (to_Q down5 - (-5)) < 1 # 10 ^ 14)%Q
  ∧ label_anomalies (calculate_price_variation scenario_close)
      scenario_threshold
    = [Stable; Upward; Downward; Downward; Stable; Stable]
  ∧ anomaly_indices [Stable; Upward; Downward; Downward; Stable; Stable]
    = [1; 2; 3]
  ∧ shift_step scenario_shift_hours
      [Stable; Upward; Downward; Downward; Stable; Stable] 1
    = [Upward; Upward; Downward; Downward; Stable; Stable]
  ∧ shift_step scenario_shift_hours
      [Upward; Upward; Downward; Downward; Stable; Stable] 2
    = [Upward; Downward; Downward; Downward; Stable; Stable]
  ∧ apply_curve_shifting
      [Stable; Upward; Downward; Downward; Stable; Stable]
      scenario_shift_hours
    = [Upward; Downward; Downward; Downward; Stable; Stable]
  ∧ handle_interleaved_anomalies
      [Upward; Downward; Downward; Downward; Stable; Stable]
    = [Stable; Stable; Downward; Downward; Stable; Stable]
  ∧ label_pipeline scenario_close scenario_threshold scenario_shift_hours
    = [0; 0; 2; 2; 0; 0]%Z
  ∧ (df ← ConstructionStage.process_file
            [("Close", Float64Col scenario_close)] scenario_threshold
            scenario_shift_hours;
     get_column "Anomaly" df)
    = Some (Int64Col [0; 0; 2; 2; 0; 0]%Z).
Proof.
  split_and!; try (vm_compute; reflexivity).
Qed.

(** The final column of the scenario is not [2, 2, 2, 0, 0, 0]. *)
Lemma worked_scenario_final_column :
  label_pipeline (of_Z <$> [100; 100; 105; 100; 95; 95]%Z) (of_Z 1) 1
  = [0; 0; 2; 2; 0; 0]%Z
  ∧ label_pipeline (of_Z <$> [100; 100; 105; 100; 95; 95]%Z) (of_Z 1) 1
    ≠ [2; 2; 2; 0; 0; 0]%Z.
Proof.
  split; [vm_compute; reflexivity | vm_compute; discriminate].
Qed.

(** ** Frames *)

Lemma get_set_column_eq (name : string) (c : column) (df : DataFrame) :
  get_column name (set_column name c df) = Some c.
Proof.
  induction df as [| [n c'] rest IH]; simpl.
  - by rewrite decide_True.
  - destruct (decide (n = name)) as [-> | Hne]; simpl.
    + by rewrite decide_True.
    + by rewrite decide_False.
Qed.

Lemma get_set_column_ne (name other : string) (c : column) (df : DataFrame) :
  name ≠ other →
  get_column other (set_column name c df) = get_column other df.
Proof.
  intros Hne. induction df as [| [n c'] rest IH]; simpl.
  - by rewrite decide_False.
  - destruct (decide (n = name)) as [-> | Hn]; simpl.
    + by rewrite !decide_False.
    + by rewrite IH.
Qed.

Lemma get_column_is_Some (name : string) (df : DataFrame) :
  is_Some (get_column name df) ↔ name ∈ columns df.
Proof.
  unfold columns. induction df as [| [n c] rest IH]; simpl.
  - split; [by intros [? ?] | by intros ?%elem_of_nil].
  - rewrite elem_of_cons. destruct (decide (n = name)) as [-> | Hne].
    + split; [by left | by eexists].
    + rewrite IH. split; [by right | by intros [-> | ?]].
Qed.

Lemma get_column_elem_of (name : string) (c : column) (df : DataFrame) :
  get_column name df = Some c → (name, c) ∈ df.
Proof.
  induction df as [| [n c'] rest IH]; simpl; [done |].
  destruct (decide (n = name)) as [-> | Hne].
  - intros [= ->]. by left.
  - intros H. right. by apply IH.
Qed.

Lemma columns_set_column (name other : string) (c : column) (df : DataFrame) :
  other ∈ columns (set_column name c df) ↔ other = name ∨ other ∈ columns df.
Proof.
  rewrite <- !get_column_is_Some.
  destruct (decide (name = other)) as [-> | Hne].
  - rewrite get_set_column_eq. split; [by left | by eexists].
  - rewrite get_set_column_ne by done. split; [by right |].
    by intros [-> | ?].
Qed.

(** Assigning to a column the frame has keeps the columns as they are. *)
Lemma columns_set_column_in (name : string) (c : column) (df : DataFrame) :
  name ∈ columns df → columns (set_column name c df) = columns df.
Proof.
  unfold columns. induction df as [| [n c'] rest IH]; simpl.
  - by intros ?%elem_of_nil.
  - destruct (decide (n = name)) as [-> | Hne]; simpl; [done |].
    rewrite elem_of_cons. intros [-> | Hin]; [done |].
    f_equal. by apply IH.
Qed.

Lemma columns_dropna (df : DataFrame) : columns (dropna df) = columns df.
Proof.
  unfold columns, dropna. rewrite <- list_fmap_compose.
  by apply list_fmap_ext.
Qed.

(** [dropna] removes rows and nothing else. *)
Lemma get_column_dropna (name : string) (df : DataFrame) :
  get_column name (dropna df)
  = column_select (notna_rows df) <$> get_column name df.
Proof.
  unfold dropna. generalize (notna_rows df) as mask. intros mask.
  induction df as [| [n c] rest IH]; simpl; [done |].
  by destruct (decide (n = name)).
Qed.

Lemma select_rows_fmap {A B : Type} (f : A → B) (mask : list bool)
      (v : list A) :
  select_rows mask (f <$> v) = f <$> select_rows mask v.
Proof.
  revert v. induction mask as [| m ms IH]; intros [| x xs]; simpl; try done.
  destruct m; simpl; by rewrite IH.
Qed.

Lemma to_numeric_column_select (mask : list bool) (c : column) :
  to_numeric (column_select mask c) = select_rows mask <$> to_numeric c.
Proof.
  destruct c as [v | v | v]; simpl; [done | | done].
  by rewrite select_rows_fmap.
Qed.

Lemma string_length_app (a b : string) :
  String.length (a +:+ b) = String.length a + String.length b.
Proof.
  induction a as [| c a IH]; [done |].
  change (S (String.length (a +:+ b))
          = S (String.length a) + String.length b).
  by rewrite IH.
Qed.

Lemma string_app_inj_r (a b suffix : string) :
  a +:+ suffix = b +:+ suffix → a = b.
Proof.
  revert b. induction a as [| c a IH]; intros [| d b] H.
  - done.
  - apply (f_equal String.length) in H.
    rewrite !string_length_app in H. simpl in H. lia.
  - apply (f_equal String.length) in H.
    rewrite !string_length_app in H. simpl in H. lia.
  - change (String c (a +:+ suffix) = String d (b +:+ suffix)) in H.
    injection H as -> H. f_equal. by apply IH.
Qed.

(** ** Files without a time column *)

Lemma transformation_main_app
      (to_datetime : column → option column)
      (robust_scale : list float → list float)
      (before after : list (string * DataFrame)) :
  TransformationStage.main to_datetime robust_scale (before ++ after)
  = TransformationStage.main to_datetime robust_scale before
    ++ TransformationStage.main to_datetime robust_scale after.
Proof.
  induction before as [| [file_path df] rest IH]; simpl; [done |].
  destruct (contains "full_data" file_path); [done |].
  destruct (TransformationStage.process_file _ _ df); simpl;
    by rewrite ?IH.
Qed.

(** The construction stage on a frame with a numeric [Close] column, with
    or without a time column. *)
Lemma construction_process_file (df : DataFrame) (threshold : float)
      (shift_hours : Z) (Close : list float) :
  get_column "Close" df ≫= to_numeric = Some Close →
  ∃ out : DataFrame,
    ConstructionStage.process_file df threshold shift_hours = Some out
    ∧ get_column "Price_Variation" out
      = Some (Float64Col (calculate_price_variation Close))
    ∧ get_column "Anomaly" out
      = Some (Int64Col (label_pipeline Close threshold shift_hours))
    ∧ (∀ name : string, name ≠ "Price_Variation" → name ≠ "Anomaly" →
                        get_column name out = get_column name df).
Proof.
  intros HClose. unfold ConstructionStage.process_file.
  destruct (get_column "Close" df) as [[v | v | v] |]; [| | done | done];
    injection HClose as <-; simpl.
  all: rewrite get_set_column_eq; simpl.
  all: rewrite get_set_column_eq; simpl.
  all: rewrite get_set_column_eq; simpl.
  all: eexists; split; [reflexivity |]; split_and!.
  all: try (rewrite !(get_set_column_ne "Anomaly") by done;
            by rewrite get_set_column_eq).
  all: try (by rewrite get_set_column_eq).
  all: intros name Hpv Han;
    rewrite !(get_set_column_ne "Anomaly") by done;
    by rewrite get_set_column_ne.
Qed.

(** C8, as the code has it.  A table with neither a [Datetime] nor a [Date]
    column is skipped by the transformation stage only: nothing is written
    for it and the other files of the batch are handled as if it were not
    there.  The indicator stage returns the table as it is and writes it
    (less its rows with a missing value); the construction stage never
    looks at the time columns and writes its labelled table whenever
    [Close] is numeric. *)
Theorem missing_time_column (df : DataFrame) :
  "Datetime" ∉ columns df → "Date" ∉ columns df →
  (∀ (to_datetime : column → option column)
     (robust_scale : list float → list float),
      TransformationStage.process_file to_datetime robust_scale df
      = TransformationStage.Skipped
      ∧ ∀ (file_path : string) (before after : list (string * DataFrame)),
          TransformationStage.main to_datetime robust_scale
            (before ++ (file_path, df) :: after)
          = TransformationStage.main to_datetime robust_scale before
            ++ TransformationStage.main to_datetime robust_scale after)
  ∧ (∀ (to_datetime : column → option column)
       (indicators : string → DataFrame → option DataFrame),
        IndicatorStage.process_file to_datetime indicators df = Some df
        ∧ ∀ (file_path : string) (rest : list (string * DataFrame)),
            IndicatorStage.main to_datetime indicators
              ((file_path, df) :: rest)
            = (basename file_path, dropna df)
              :: IndicatorStage.main_loop to_datetime indicators
                   (Some (dropna df)) rest)
  ∧ (∀ (threshold : float) (shift_hours : Z) (Close : list float),
        get_column "Close" df ≫= to_numeric = Some Close →
        ∃ out : DataFrame,
          ConstructionStage.process_file df threshold shift_hours = Some out
          ∧ get_column "Anomaly" out
            = Some (Int64Col (label_pipeline Close threshold shift_hours))
          ∧ ∀ (file_path : string) (rest : list (string * DataFrame)),
              ConstructionStage.main ((file_path, df) :: rest)
                threshold shift_hours
              = (basename file_path, out)
                :: ConstructionStage.main rest threshold shift_hours).
Proof.
  intros Hdt Hd. split_and!.
  - intros to_datetime robust_scale.
    assert (Hskip : TransformationStage.process_file to_datetime
                      robust_scale df = TransformationStage.Skipped).
    { unfold TransformationStage.process_file.
      by rewrite !decide_False. }
    split; [done |].
    intros file_path before after.
    rewrite transformation_main_app. f_equal. simpl.
    rewrite Hskip. by destruct (contains "full_data" file_path).
  - intros to_datetime indicators.
    assert (Hpass : IndicatorStage.process_file to_datetime indicators df
                    = Some df).
    { unfold IndicatorStage.process_file,
        IndicatorStage.integrate_technical_indicators.
      by rewrite !decide_False. }
    split; [done |].
    intros file_path rest. unfold IndicatorStage.main. simpl.
    by rewrite Hpass.
  - intros threshold shift_hours Close HClose.
    destruct (construction_process_file df threshold shift_hours Close HClose)
      as (out & Hout & _ & Han & _).
    exists out. split_and!; [done | done |].
    intros file_path rest. simpl. by rewrite Hout.
Qed.

Lemma missing_time_column_witness :
  let df : DataFrame := [("Close", Float64Col (of_Z <$> [100; 105]%Z))] in
  TransformationStage.main Some (fun v => v) [("data/a.csv", df)] = []
  ∧ IndicatorStage.main Some (fun _ d => Some d) [("data/a.csv", df)]
    = [("a.csv", df)].
Proof.
  set (df := [("Close", Float64Col (of_Z <$> [100; 105]%Z))]).
  assert (Hdt : "Datetime" ∉ columns df) by compute_done.
  assert (Hd : "Date" ∉ columns df) by compute_done.
  destruct (missing_time_column df Hdt Hd) as (Htr & Hin & _).
  split.
  - destruct (Htr Some (fun v => v)) as [_ Hmain].
    apply (Hmain "data/a.csv" [] []).
  - destruct (Hin Some (fun _ d => Some d)) as [_ Hmain].
    apply (Hmain "data/a.csv" []).
Defined.

(** A table without a time column that two stages write all the same. *)
Lemma table_without_time_column_written :
  let df : DataFrame := [("Close", Float64Col (of_Z <$> [100; 105]%Z))] in
  ("Datetime" ∉ columns df) ∧ ("Date" ∉ columns df)
  ∧ ConstructionStage.main [("data/raw/a.csv", df)] (of_Z 1) 4
    = [("a.csv",
        [("Close", Float64Col (of_Z <$> [100; 105]%Z));
         ("Price_Variation",
          Float64Col [nan; S754_finite false 5629499534213125 (-50)]);
         ("Anomaly", Int64Col [Upward; Stable])])]
  ∧ IndicatorStage.main (fun _ => None) (fun _ _ => None)
      [("data/processed/a.csv", df)]
    = [("a.csv", df)].
Proof.
  split_and!; [compute_done | compute_done | |];
    vm_compute; reflexivity.
Qed.

(** ** The transformation stage *)

Import TransformationStage.

Lemma add_pct_changes_failed (cols : list string) :
  foldl (fun acc col => df ← acc; add_pct_change df col) None cols = None.
Proof. induction cols as [| col cols IH]; simpl; done. Qed.

Lemma add_pct_changes_cons (df : DataFrame) (col : string)
      (cols : list string) :
  add_pct_changes df (col :: cols)
  = add_pct_change df col ≫= fun df' => add_pct_changes df' cols.
Proof.
  unfold add_pct_changes. simpl.
  destruct (add_pct_change df col); simpl; [done |].
  apply add_pct_changes_failed.
Qed.

Lemma companion_inj (a b : string) :
  a +:+ "_pct_change" = b +:+ "_pct_change" → a = b.
Proof. apply string_app_inj_r. Qed.

(** The loop keeps every column it found, touches only the companion
    names, and leaves under each of them a percent change. *)
Lemma add_pct_changes_spec (cols : list string) (df out : DataFrame) :
  add_pct_changes df cols = Some out →
  (∀ name : string,
      name ∈ columns out
      ↔ name ∈ columns df
        ∨ ∃ col : string, col ∈ cols ∧ name = col +:+ "_pct_change")
  ∧ (∀ name : string,
        (∀ col : string, col ∈ cols → name ≠ col +:+ "_pct_change") →
        get_column name out = get_column name df)
  ∧ (∀ col : string,
        col ∈ cols →
        ∃ v : list float,
          get_column (col +:+ "_pct_change") out
          = Some (Float64Col (pct_change v))).
Proof.
  revert df. induction cols as [| col0 cols IH]; intros df Hout.
  - injection Hout as <-. split_and!.
    + intros name. split; [by left |].
      intros [? | (col & ?%elem_of_nil & _)]; done.
    + done.
    + intros col ?%elem_of_nil. done.
  - rewrite add_pct_changes_cons in Hout.
    destruct (add_pct_change df col0) as [df1 |] eqn:Hstep; [| done].
    simpl in Hout. unfold add_pct_change in Hstep.
    destruct (get_column col0 df ≫= to_numeric) as [v0 |]; [| done].
    injection Hstep as <-.
    destruct (IH _ Hout) as (Hcols & Hkeep & Hcomp).
    split_and!.
    + intros name. rewrite Hcols, columns_set_column. split.
      * intros [[-> | Hin] | (col & Hcol & ->)].
        -- right. exists col0. split; [by left | done].
        -- by left.
        -- right. exists col. split; [by right | done].
      * intros [Hin | (col & Hcol & ->)].
        -- left. by right.
        -- apply elem_of_cons in Hcol as [-> | Hcol].
           ++ left. by left.
           ++ right. by exists col.
    + intros name Hname. rewrite Hkeep.
      * apply get_set_column_ne. intros Heq.
        apply (Hname col0); [by left | done].
      * intros col Hcol. apply Hname. by right.
    + intros col Hcol.
      destruct (decide (col ∈ cols)) as [Hin | Hnin]; [by apply Hcomp |].
      apply elem_of_cons in Hcol as [-> | Hcol]; [| done].
      exists v0. rewrite Hkeep.
      * apply get_set_column_eq.
      * intros col Hcol Heq. apply companion_inj in Heq. by subst.
Qed.

(** When no feature column bears the companion name of another, the
    companion of a column holds the percent change of that column. *)
Lemma add_pct_changes_values (cols : list string) (df out : DataFrame) :
  add_pct_changes df cols = Some out →
  (∀ c c' : string, c ∈ cols → c' ∈ cols → c ≠ c' +:+ "_pct_change") →
  ∀ (col : string) (v : list float),
    col ∈ cols → get_column col df ≫= to_numeric = Some v →
    get_column (col +:+ "_pct_change") out = Some (Float64Col (pct_change v)).
Proof.
  revert df. induction cols as [| col0 cols IH]; intros df Hout Hfree col v Hcol Hv.
  - by apply elem_of_nil in Hcol.
  - rewrite add_pct_changes_cons in Hout.
    destruct (add_pct_change df col0) as [df1 |] eqn:Hstep; [| done].
    simpl in Hout. unfold add_pct_change in Hstep.
    destruct (get_column col0 df ≫= to_numeric) as [v0 |] eqn:Hv0; [| done].
    injection Hstep as <-.
    destruct (decide (col ∈ cols)) as [Hin | Hnin].
    + apply (IH _ Hout); [| done |].
      * intros c c' Hc Hc'. apply Hfree; by right.
      * rewrite get_set_column_ne; [done |].
        intros Heq. apply (Hfree col col0); [done | by left | done].
    + apply elem_of_cons in Hcol as [-> | Hcol]; [| done].
      destruct (add_pct_changes_spec _ _ _ Hout) as (_ & Hkeep & _).
      rewrite Hkeep.
      * rewrite get_set_column_eq. congruence.
      * intros c Hc Heq. apply companion_inj in Heq. by subst.
Qed.

Section Scaling.

Variable robust_scale : list float → list float.

Lemma scale_fold_spec (df : DataFrame) (cols : list string)
      (X : list (list float)) :
  Forall2 (fun col v => get_column col df ≫= to_numeric = Some v) cols X →
  ∀ acc : DataFrame,
    let out :=
      foldl (fun acc cv =>
               set_column cv.1 (Float64Col (robust_scale cv.2)) acc)
            acc (zip cols X) in
    (∀ name : string, name ∉ cols → get_column name out = get_column name acc)
    ∧ (∀ (name : string) (v : list float),
          name ∈ cols → get_column name df ≫= to_numeric = Some v →
          get_column name out = Some (Float64Col (robust_scale v)))
    ∧ ((∀ c : string, c ∈ cols → c ∈ columns acc) →
       columns out = columns acc).
Proof.
  induction 1 as [| col v cols X Hhead _ IH]; intros acc; simpl.
  - split_and!; [done | | done]. intros name v ?%elem_of_nil. done.
  - destruct (IH (set_column col (Float64Col (robust_scale v)) acc))
      as (Hout & Hin & Hcols).
    split_and!.
    + intros name Hname. apply not_elem_of_cons in Hname as [Hne Hname].
      rewrite Hout by done. by apply get_set_column_ne.
    + intros name v' Hname Hv'.
      destruct (decide (name ∈ cols)) as [Hc | Hc]; [by apply Hin |].
      apply elem_of_cons in Hname as [-> | Hname]; [| done].
      rewrite Hout by done. rewrite get_set_column_eq. congruence.
    + intros Hall. rewrite Hcols.
      * apply columns_set_column_in. apply Hall. by left.
      * intros c Hc. apply columns_set_column. right. apply Hall. by right.
Qed.

(** [robust_scaling] keeps the columns, leaves the excluded ones as they
    are and replaces every other one by its scaled values. *)
Lemma robust_scaling_spec (df out : DataFrame)
      (exclude_columns : list string) :
  robust_scaling robust_scale df exclude_columns = Some out →
  columns out = columns df
  ∧ (∀ name : string,
        name ∈ exclude_columns → get_column name out = get_column name df)
  ∧ (∀ name : string,
        name ∈ columns df → name ∉ exclude_columns →
        ∃ v : list float,
          get_column name df ≫= to_numeric = Some v
          ∧ get_column name out = Some (Float64Col (robust_scale v))).
Proof.
  unfold robust_scaling. intros Hout.
  set (cols := filter (fun col => col ∉ exclude_columns) (columns df)) in *.
  destruct (mapM (fun col => get_column col df ≫= to_numeric) cols)
    as [X |] eqn:HX; [| done].
  simpl in Hout. destruct (check_array (nrows df) X); [| done].
  injection Hout as <-.
  apply mapM_Some in HX.
  destruct (scale_fold_spec df cols X HX df) as (Hkeep & Hin & Hcols).
  split_and!.
  - apply Hcols. intros c Hc. unfold cols in Hc.
    by apply list_elem_of_filter in Hc as [_ Hc].
  - intros name Hname. apply Hkeep. unfold cols.
    rewrite list_elem_of_filter. by intros [Hn _].
  - intros name Hname Hexcl.
    assert (Hc : name ∈ cols) by (by apply list_elem_of_filter).
    destruct (proj1 (list_elem_of_lookup cols name) Hc) as [k Hk].
    destruct (Forall2_lookup_l _ _ _ _ _ HX Hk) as (v & _ & Hv).
    exists v. split; [done |]. by apply Hin.
Qed.

End Scaling.

Lemma row_isna_companion (df : DataFrame) (name : string) (v : list float) :
  get_column name df = Some (Float64Col (pct_change v)) →
  0 < length v → row_isna df 0 = true.
Proof.
  intros Hget Hlen. unfold row_isna. apply existsb_exists.
  exists (name, Float64Col (pct_change v)). split.
  - apply list_elem_of_In. by apply get_column_elem_of.
  - simpl. by rewrite pct_change_lookup_0.
Qed.

Lemma not_companion_of_label (col : string) :
  "Anomaly" ≠ col +:+ "_pct_change".
Proof.
  intros Heq. apply (f_equal String.length) in Heq.
  rewrite string_length_app in Heq. simpl in Heq. lia.
Qed.

(** The time column is converted in place. *)
Lemma convert_time_column (name : string) (c : column) (df : DataFrame) :
  name ∈ columns df →
  columns (set_column name c df) = columns df
  ∧ ∀ other : string,
      other ≠ name →
      get_column other (set_column name c df) = get_column other df.
Proof.
  intros Hin. split; [by apply columns_set_column_in |].
  intros other Hne. by apply get_set_column_ne.
Qed.

Lemma not_companion_of_short_name (name col : string) :
  String.length name < 11 → name ≠ col +:+ "_pct_change".
Proof.
  intros Hshort Heq. apply (f_equal String.length) in Heq.
  rewrite string_length_app in Heq. simpl in Heq. lia.
Qed.

Lemma notna_rows_first (df : DataFrame) :
  row_isna df 0 = true → notna_rows df !! 0 ≠ Some true.
Proof.
  intros Hrow. unfold notna_rows. rewrite list_lookup_fmap.
  destruct (seq 0 (nrows df) !! 0) as [k |] eqn:Hk; [| done].
  apply lookup_seq in Hk as [-> _]. simpl. by rewrite Hrow.
Qed.

(** C9, as the code has it.  When the stage saves a file:
    - the time column ([Datetime], or else [Date]) is converted in place;
    - the columns written are those read plus one [<name>_pct_change] for
      every column read other than [Datetime], [Date], [Anomaly] and
      [Volume]; a column is not replaced by its percent change (only a
      column read under the companion name of another is overwritten, by
      that companion);
    - each companion holds a percent change, the one of its own column
      whenever no column read bears the companion name of another, and a
      column whose name is not a companion name keeps its values;
    - the first row of a companion is missing, so row 0 is dropped, with
      every other row that has a missing value, as soon as a companion
      holds a row;
    - every column other than [Datetime], [Date] and [Anomaly] (the
      original ones, [Volume] and the companions alike) is then replaced
      by its robust-scaled values;
    - the label and the time columns only lose the dropped rows. *)
Theorem transformation_stage
        (to_datetime : column → option column)
        (robust_scale : list float → list float)
        (df out : DataFrame) :
  process_file to_datetime robust_scale df = Saved out →
  ∃ timed with_pct : DataFrame,
    let features :=
      filter (fun col => col ∉ exclude_columns_pct) (columns df) in
    let kept := notna_rows with_pct in
    columns timed = columns df
    ∧ (∀ name : string, name ≠ "Datetime" → name ≠ "Date" →
                        get_column name timed = get_column name df)
    ∧ (∃ (time_name : string) (c converted : column),
          (time_name = "Datetime"
           ∨ time_name = "Date" ∧ "Datetime" ∉ columns df)
          ∧ get_column time_name df = Some c
          ∧ to_datetime c = Some converted
          ∧ timed = set_column time_name converted df)
    ∧ add_pct_changes timed features = Some with_pct
    ∧ (∀ name : string,
          name ∈ columns out
          ↔ name ∈ columns df
            ∨ ∃ col : string, col ∈ features ∧ name = col +:+ "_pct_change")
    ∧ (∀ col : string,
          col ∈ features →
          ∃ v : list float,
            get_column (col +:+ "_pct_change") with_pct
            = Some (Float64Col (pct_change v))
            ∧ (0 < length v →
               row_isna with_pct 0 = true ∧ kept !! 0 ≠ Some true))
    ∧ ((∀ c c' : string, c ∈ columns df → c' ∈ columns df →
                         c ≠ c' +:+ "_pct_change") →
       ∀ (col : string) (v : list float),
         col ∈ features → get_column col df ≫= to_numeric = Some v →
         get_column (col +:+ "_pct_change") with_pct
         = Some (Float64Col (pct_change v)))
    ∧ (∀ name : string,
          (∀ col : string, col ∈ features → name ≠ col +:+ "_pct_change") →
          get_column name with_pct = get_column name timed)
    ∧ (∀ name : string,
          name ∈ exclude_columns_scaler →
          get_column name out = column_select kept <$> get_column name with_pct
          ∧ get_column name out = column_select kept <$> get_column name timed)
    ∧ get_column "Anomaly" out = column_select kept <$> get_column "Anomaly" df
    ∧ (∀ name : string,
          name ∈ columns out → name ∉ exclude_columns_scaler →
          ∃ v : list float,
            get_column name with_pct ≫= to_numeric = Some v
            ∧ get_column name out
              = Some (Float64Col (robust_scale (select_rows kept v)))).
Proof.
  unfold process_file. intros Hsaved.
  assert (∃ timed : DataFrame,
             columns timed = columns df
             ∧ (∀ name : string, name ≠ "Datetime" → name ≠ "Date" →
                  get_column name timed = get_column name df)
             ∧ (∃ (time_name : string) (c converted : column),
                   (time_name = "Datetime"
                    ∨ time_name = "Date" ∧ "Datetime" ∉ columns df)
                   ∧ get_column time_name df = Some c
                   ∧ to_datetime c = Some converted
                   ∧ timed = set_column time_name converted df)
             ∧ match compute_percent_variation timed exclude_columns_pct with
               | Some df2 =>
                   match robust_scaling robust_scale df2
                           exclude_columns_scaler with
                   | Some scaled => Saved scaled
                   | None => Failed
                   end
               | None => Failed
               end = Saved out)
    as (timed & Hcols & Hother & Htime & Hrest).
  { destruct (decide ("Datetime" ∈ columns df)) as [Hdt | Hdt].
    - destruct (get_column "Datetime" df) as [c0 |] eqn:Hc0; [| done].
      simpl in Hsaved.
      destruct (to_datetime c0) as [c |] eqn:Hconv; [| done].
      simpl in Hsaved. eexists. split_and!; [| | | exact Hsaved].
      + by apply convert_time_column.
      + intros name Hn _. by apply get_set_column_ne.
      + exists "Datetime", c0, c. split_and!; [by left | done | done | done].
    - destruct (decide ("Date" ∈ columns df)) as [Hd | Hd]; [| done].
      destruct (get_column "Date" df) as [c0 |] eqn:Hc0; [| done].
      simpl in Hsaved.
      destruct (to_datetime c0) as [c |] eqn:Hconv; [| done].
      simpl in Hsaved. eexists. split_and!; [| | | exact Hsaved].
      + by apply convert_time_column.
      + intros name _ Hn. by apply get_set_column_ne.
      + exists "Date", c0, c. split_and!; [by right | done | done | done]. }
  clear Hsaved. unfold compute_percent_variation in Hrest.
  rewrite Hcols in Hrest.
  set (features := filter (fun col => col ∉ exclude_columns_pct) (columns df))
    in *.
  destruct (add_pct_changes timed features) as [with_pct |] eqn:Hpct;
    [| done].
  simpl in Hrest.
  destruct (robust_scaling robust_scale (dropna with_pct)
              exclude_columns_scaler) as [scaled |] eqn:Hscale; [| done].
  injection Hrest as ->.
  destruct (add_pct_changes_spec _ _ _ Hpct) as (Hnames & Hkeep & Hcomp).
  destruct (robust_scaling_spec _ _ _ _ Hscale) as (Hsc_cols & Hsc_excl & Hsc).
  rewrite columns_dropna in Hsc_cols.
  exists timed, with_pct. cbv zeta. fold features.
  split_and!; try done.
  - intros name. by rewrite Hsc_cols, Hnames, Hcols.
  - intros col Hcol. destruct (Hcomp col Hcol) as [v Hv].
    exists v. split; [done |]. intros Hrows.
    assert (Hrow : row_isna with_pct 0 = true)
      by (by apply (row_isna_companion with_pct (col +:+ "_pct_change") v)).
    split; [done |]. by apply notna_rows_first.
  - intros Hfree col v Hcol Hv.
    assert (Hfeat : ∀ c : string, c ∈ features →
              c ∈ columns df ∧ c ≠ "Datetime" ∧ c ≠ "Date").
    { intros c Hc. apply list_elem_of_filter in Hc as [Hex Hc].
      split_and!; [done | |]; intros ->; apply Hex; compute_done. }
    apply (add_pct_changes_values _ _ _ Hpct); [| done |].
    + intros c c' Hc Hc'. apply Hfree; by apply Hfeat.
    + rewrite Hother; [done | |]; by apply Hfeat.
  - intros name Hexcl.
    assert (Hdrop : get_column name out
                    = column_select (notna_rows with_pct)
                        <$> get_column name with_pct).
    { rewrite Hsc_excl by done. apply get_column_dropna. }
    split; [done |]. rewrite Hdrop. f_equal. apply Hkeep.
    intros col _. apply not_companion_of_short_name.
    unfold exclude_columns_scaler in Hexcl.
    repeat (apply elem_of_cons in Hexcl as [-> | Hexcl]; [simpl; lia |]).
    by apply elem_of_nil in Hexcl.
  - rewrite Hsc_excl by compute_done.
    rewrite get_column_dropna. f_equal.
    rewrite Hkeep by (intros col _; apply not_companion_of_label).
    by apply Hother.
  - intros name Hname Hexcl.
    destruct (Hsc name) as (v & Hv & Hout);
      [by rewrite columns_dropna, <- Hsc_cols | done |].
    rewrite get_column_dropna in Hv.
    destruct (get_column name with_pct) as [c |]; [| done].
    simpl in Hv. rewrite to_numeric_column_select in Hv. simpl.
    destruct (to_numeric c) as [v0 |]; [| done].
    simpl in Hv. injection Hv as <-. by exists v0.
Qed.

Lemma transformation_stage_witness :
  ∃ out : DataFrame,
    process_file Some (fun v => v) sample_table = Saved out
    ∧ ("Close" ∈ columns out ∧ "Close_pct_change" ∈ columns out)
    ∧ get_column "Anomaly" out = Some (Int64Col [1; 0]%Z).
Proof.
  destruct (process_file Some (fun v => v) sample_table) as [out | |] eqn:Hrun;
    [| vm_compute in Hrun; discriminate ..].
  exists out. split; [done |].
  destruct (transformation_stage Some (fun v => v) sample_table out Hrun)
    as (timed & with_pct & _ & _ & _ & _ & Hnames & _).
  split.
  - split; apply Hnames.
    + left. compute_done.
    + right. exists "Close". split; [compute_done | done].
  - vm_compute in Hrun. injection Hrun as <-. reflexivity.
Defined.

(** The percent-change step on a table with a [Close] and a [Volume]
    column: [Close] still holds prices, [Volume] has no companion, and the
    percent change of [Close] sits in a new column. *)
Lemma percent_variation_appends_columns :
  compute_percent_variation sample_table exclude_columns_pct
  = Some
      [("Date", ObjectCol [Some "2024-01-02"; Some "2024-01-03"]);
       ("Close", Float64Col (of_Z <$> [110; 121]%Z));
       ("Volume", Int64Col [0; 7]%Z);
       ("Anomaly", Int64Col [1; 0]%Z);
       ("Close_pct_change",
        Float64Col [S754_finite false 7205759403792800 (-56);
                    S754_finite false 7205759403792800 (-56)])]
  ∧ columns <$> compute_percent_variation sample_table exclude_columns_pct
    ≠ Some (columns sample_table).
Proof.
  split; [vm_compute; reflexivity | vm_compute; discriminate].
Qed.

(** ** Filling missing values *)

Import AcquisitionStage.

Section Fill.

Context {A : Type} (na : A → bool).

Lemma ffill_with_length (last : option A) (s : list A) :
  length (ffill_with na last s) = length s.
Proof.
  revert last. induction s as [| x r IH]; intros last; simpl; [done |].
  destruct (na x); simpl; by rewrite IH.
Qed.

Lemma ffill_with_valid_lookup (last : option A) (s : list A) (i : nat)
      (x : A) :
  s !! i = Some x → na x = false → ffill_with na last s !! i = Some x.
Proof.
  revert last i. induction s as [| y r IH]; intros last [| i] Hx Hna;
    simpl in *; try done.
  - injection Hx as ->. by rewrite Hna.
  - destruct (na y); simpl; by apply IH.
Qed.

(** A cell is valid after the forward fill as soon as a valid value stands
    at or above it. *)
Lemma ffill_with_filled (last : option A) (s : list A) (i : nat) (y : A) :
  ffill_with na last s !! i = Some y →
  (∃ l : A, last = Some l ∧ na l = false)
  ∨ (∃ (j : nat) (x : A), j ≤ i ∧ s !! j = Some x ∧ na x = false) →
  na y = false.
Proof.
  revert last i. induction s as [| x r IH]; intros last i Hy Hsrc;
    simpl in *; [done |].
  destruct (na x) eqn:Hx.
  - destruct i as [| i]; simpl in Hy.
    + injection Hy as <-.
      destruct Hsrc as [(l & -> & Hl) | (j & x' & Hj & Hx' & Hna)]; [done |].
      assert (j = 0) as -> by lia. simpl in Hx'. congruence.
    + apply (IH last i Hy).
      destruct Hsrc as [Hl | (j & x' & Hj & Hx' & Hna)]; [by left |].
      destruct j as [| j]; [simpl in Hx'; congruence |].
      right. exists j, x'. split_and!; [lia | done | done].
  - destruct i as [| i]; simpl in Hy.
    + by injection Hy as <-.
    + apply (IH (Some x) i Hy). left. by exists x.
Qed.

Lemma ffill_with_all_na (s : list A) :
  Forall (fun x => na x = true) s → ffill_with na None s = s.
Proof.
  induction 1 as [| x r Hx _ IH]; simpl; [done |].
  rewrite Hx. simpl. by rewrite IH.
Qed.

Lemma ffill_with_all_valid (last : option A) (s : list A) :
  Forall (fun x => na x = false) s → ffill_with na last s = s.
Proof.
  intros Hs. revert last.
  induction Hs as [| x r Hx _ IH]; intros last; simpl; [done |].
  rewrite Hx. by rewrite IH.
Qed.

Lemma bfill_with_length (s : list A) : length (bfill_with na s) = length s.
Proof.
  unfold bfill_with.
  by rewrite length_reverse, ffill_with_length, length_reverse.
Qed.

Lemma bfill_with_lookup (s : list A) (i : nat) :
  i < length s →
  bfill_with na s !! i
  = ffill_with na None (reverse s) !! (length s - S i).
Proof.
  intros Hi. unfold bfill_with.
  rewrite reverse_lookup
    by (by rewrite ffill_with_length, length_reverse).
  by rewrite ffill_with_length, length_reverse.
Qed.

Lemma bfill_with_valid_lookup (s : list A) (i : nat) (x : A) :
  s !! i = Some x → na x = false → bfill_with na s !! i = Some x.
Proof.
  intros Hx Hna.
  assert (Hi : i < length s) by (by apply lookup_lt_Some in Hx).
  rewrite bfill_with_lookup by done.
  apply ffill_with_valid_lookup; [| done].
  rewrite reverse_lookup by lia.
  by replace (length s - S (length s - S i)) with i by lia.
Qed.

(** A cell is valid after the backward fill as soon as a valid value stands
    at or below it. *)
Lemma bfill_with_filled (s : list A) (i : nat) (y : A) :
  bfill_with na s !! i = Some y →
  (∃ (j : nat) (x : A), i ≤ j ∧ s !! j = Some x ∧ na x = false) →
  na y = false.
Proof.
  intros Hy (j & x & Hij & Hx & Hna).
  assert (Hi : i < length s).
  { apply lookup_lt_Some in Hy. by rewrite bfill_with_length in Hy. }
  assert (Hj : j < length s) by (by apply lookup_lt_Some in Hx).
  rewrite bfill_with_lookup in Hy by done.
  apply (ffill_with_filled _ _ _ _ Hy). right.
  exists (length s - S j), x. split_and!; [lia | | done].
  rewrite reverse_lookup by lia.
  by replace (length s - S (length s - S j)) with j by lia.
Qed.

Lemma bfill_with_all_na (s : list A) :
  Forall (fun x => na x = true) s → bfill_with na s = s.
Proof.
  intros Hs. unfold bfill_with.
  rewrite ffill_with_all_na by (by apply Forall_reverse).
  apply reverse_involutive.
Qed.

Lemma bfill_with_all_valid (s : list A) :
  Forall (fun x => na x = false) s → bfill_with na s = s.
Proof.
  intros Hs. unfold bfill_with.
  rewrite ffill_with_all_valid by (by apply Forall_reverse).
  apply reverse_involutive.
Qed.

(** Forward fill followed by backward fill, on one column. *)
Definition fill_both (s : list A) : list A :=
  bfill_with na (ffill_with na None s).

Lemma fill_both_length (s : list A) : length (fill_both s) = length s.
Proof. unfold fill_both. by rewrite bfill_with_length, ffill_with_length. Qed.

Lemma fill_both_valid_lookup (s : list A) (i : nat) (x : A) :
  s !! i = Some x → na x = false → fill_both s !! i = Some x.
Proof.
  intros Hx Hna. apply bfill_with_valid_lookup; [| done].
  by apply ffill_with_valid_lookup.
Qed.

Lemma fill_both_filled (s : list A) (k : nat) (x : A) :
  s !! k = Some x → na x = false →
  Forall (fun y => na y = false) (fill_both s).
Proof.
  intros Hx Hna. apply Forall_lookup. intros i y Hy.
  assert (Hi : i < length s).
  { apply lookup_lt_Some in Hy. by rewrite fill_both_length in Hy. }
  apply (bfill_with_filled _ _ _ Hy).
  destruct (decide (i ≤ k)) as [Hik | Hik].
  - exists k, x. split_and!; [done | | done].
    by apply ffill_with_valid_lookup.
  - destruct (lookup_lt_is_Some_2 (ffill_with na None s) i) as [z Hz];
      [by rewrite ffill_with_length |].
    exists i, z. split_and!; [done | done |].
    apply (ffill_with_filled _ _ _ _ Hz). right.
    exists k, x. split_and!; [lia | done | done].
Qed.

Lemma fill_both_all_na (s : list A) :
  Forall (fun x => na x = true) s → fill_both s = s.
Proof.
  intros Hs. unfold fill_both.
  rewrite ffill_with_all_na by done. by apply bfill_with_all_na.
Qed.

Lemma fill_both_all_valid (s : list A) :
  Forall (fun x => na x = false) s → fill_both s = s.
Proof.
  intros Hs. unfold fill_both.
  rewrite ffill_with_all_valid by done. by apply bfill_with_all_valid.
Qed.

Lemma valid_or_all_na (s : list A) :
  (∃ (k : nat) (x : A), s !! k = Some x ∧ na x = false)
  ∨ Forall (fun x => na x = true) s.
Proof.
  induction s as [| x r IH].
  - by right.
  - destruct (na x) eqn:Hx.
    + destruct IH as [(k & y & Hy & Hna) | Hall].
      * left. by exists (S k), y.
      * right. by constructor.
    + left. by exists 0, x.
Qed.

Lemma fill_both_idempotent (s : list A) :
  fill_both (fill_both s) = fill_both s.
Proof.
  destruct (valid_or_all_na s) as [(k & x & Hx & Hna) | Hall].
  - apply fill_both_all_valid. by apply (fill_both_filled s k x).
  - rewrite (fill_both_all_na s Hall). by apply fill_both_all_na.
Qed.

End Fill.

Lemma get_column_map (f : column → column) (name : string) (df : DataFrame) :
  get_column name ((fun nc => (nc.1, f nc.2)) <$> df)
  = f <$> get_column name df.
Proof.
  induction df as [| [n c] rest IH]; simpl; [done |].
  by destruct (decide (n = name)).
Qed.

Lemma fill_missing_values_lookup (name : string) (data : DataFrame) :
  get_column name (fill_missing_values data)
  = (fun c => column_bfill (column_ffill c)) <$> get_column name data.
Proof.
  unfold fill_missing_values, frame_bfill, frame_ffill.
  rewrite !get_column_map. by destruct (get_column name data).
Qed.

Lemma column_fill_length (c : column) :
  column_length (column_bfill (column_ffill c)) = column_length c.
Proof.
  destruct c as [v | v | v]; simpl; [| done |];
    by rewrite bfill_with_length, ffill_with_length.
Qed.

(** X1. [fill_missing_values] leaves no missing cell in a column that has
    at least one value, keeps the length of every column, and returns a
    column without any value as it is. *)
Theorem fill_missing_values_complete (data : DataFrame) (name : string)
        (c : column) :
  get_column name data = Some c →
  ∃ filled : column,
    get_column name (fill_missing_values data) = Some filled
    ∧ column_length filled = column_length c
    ∧ ((∃ k : nat, k < column_length c ∧ cell_isna c k = false) →
       ∀ i : nat, cell_isna filled i = false)
    ∧ ((∀ k : nat, k < column_length c → cell_isna c k = true) →
       filled = c).
Proof.
  intros Hc. exists (column_bfill (column_ffill c)).
  split; [by rewrite fill_missing_values_lookup, Hc |].
  split; [apply column_fill_length |].
  destruct c as [v | v | v]; simpl.
  - split.
    + intros (k & Hk & Hna) i.
      destruct (lookup_lt_is_Some_2 v k Hk) as [x Hx].
      rewrite Hx in Hna. simpl in Hna.
      pose proof (fill_both_filled isna v k x Hx Hna) as Hall.
      unfold fill_both in Hall.
      destruct (bfill_with isna (ffill_with isna None v) !! i) as [y |] eqn:Hy;
        [| done].
      simpl. by apply (proj1 (Forall_lookup _ _) Hall i y).
    + intros Hall. f_equal. apply (fill_both_all_na isna).
      apply Forall_lookup. intros k x Hx.
      specialize (Hall k (lookup_lt_Some _ _ _ Hx)).
      by rewrite Hx in Hall.
  - done.
  - split.
    + intros (k & Hk & Hna) i.
      destruct (lookup_lt_is_Some_2 v k Hk) as [x Hx].
      rewrite Hx in Hna. apply bool_decide_eq_false in Hna.
      assert (Hvalid : object_isna x = false)
        by (destruct x; [done | by destruct Hna]).
      pose proof (fill_both_filled object_isna v k x Hx Hvalid) as Hall.
      unfold fill_both in Hall.
      apply bool_decide_eq_false. intros Hy.
      by pose proof (proj1 (Forall_lookup _ _) Hall i None Hy).
    + intros Hall. f_equal. apply (fill_both_all_na object_isna).
      apply Forall_lookup. intros k x Hx.
      specialize (Hall k (lookup_lt_Some _ _ _ Hx)).
      apply bool_decide_eq_true in Hall. rewrite Hx in Hall.
      by injection Hall as ->.
Qed.

Lemma fill_missing_values_complete_witness :
  ∃ filled : column,
    get_column "Close"
      (fill_missing_values
         [("Close", Float64Col [nan; of_Z 7; nan; of_Z 9; nan])])
    = Some filled
    ∧ filled = Float64Col [of_Z 7; of_Z 7; of_Z 7; of_Z 9; of_Z 9].
Proof.
  destruct (fill_missing_values_complete
              [("Close", Float64Col [nan; of_Z 7; nan; of_Z 9; nan])]
              "Close" (Float64Col [nan; of_Z 7; nan; of_Z 9; nan]) eq_refl)
    as (filled & Hget & _).
  exists filled. split; [exact Hget |].
  vm_compute in Hget. by injection Hget as <-.
Defined.

(** X2. [fill_missing_values] never changes a cell that holds a value, in
    columns of any dtype, and keeps the columns of the table. *)
Theorem fill_missing_values_keeps_observed (data : DataFrame) (name : string) :
  columns (fill_missing_values data) = columns data
  ∧ (∀ v : list float,
        get_column name data = Some (Float64Col v) →
        ∃ filled : list float,
          get_column name (fill_missing_values data)
          = Some (Float64Col filled)
          ∧ ∀ (i : nat) (x : float),
              v !! i = Some x → isna x = false → filled !! i = Some x)
  ∧ (∀ v : list (option string),
        get_column name data = Some (ObjectCol v) →
        ∃ filled : list (option string),
          get_column name (fill_missing_values data)
          = Some (ObjectCol filled)
          ∧ ∀ (i : nat) (x : string),
              v !! i = Some (Some x) → filled !! i = Some (Some x))
  ∧ (∀ v : list Z,
        get_column name data = Some (Int64Col v) →
        get_column name (fill_missing_values data) = Some (Int64Col v)).
Proof.
  split_and!.
  - unfold fill_missing_values, frame_bfill, frame_ffill, columns.
    rewrite <- !list_fmap_compose. by apply list_fmap_ext.
  - intros v Hv. eexists. split.
    + by rewrite fill_missing_values_lookup, Hv.
    + intros i x Hx Hna. by apply (fill_both_valid_lookup isna).
  - intros v Hv. eexists. split.
    + by rewrite fill_missing_values_lookup, Hv.
    + intros i x Hx. by apply (fill_both_valid_lookup object_isna).
  - intros v Hv. by rewrite fill_missing_values_lookup, Hv.
Qed.

(** X3. Filling twice is filling once. *)
Theorem fill_missing_values_idempotent (data : DataFrame) :
  fill_missing_values (fill_missing_values data) = fill_missing_values data.
Proof.
  unfold fill_missing_values, frame_bfill, frame_ffill.
  rewrite <- !list_fmap_compose. apply list_fmap_ext.
  intros i [name c] _. simpl. f_equal.
  destruct c as [v | v | v]; simpl; [| done |]; f_equal.
  - apply (fill_both_idempotent isna).
  - apply (fill_both_idempotent object_isna).
Qed.

(** ** More on the labelling steps *)

(** X4. A close of zero raises no error.  When the next bar's close is
    finite and not zero, its variation is infinite: positive when that
    close and the zero have the same sign, negative when they differ (so
    after [+0.0] it has the sign of the close, after [-0.0] the opposite
    one).  When the next close is zero too, the variation is NaN.  An
    infinite positive variation makes the zero bar Upward for every
    threshold below infinity. *)
Theorem price_variation_after_zero_close (Close : list float) (i : nat)
        (s : bool) :
  Forall (fun c => isna c = false) Close →
  Close !! i = Some (S754_zero s) →
  (∀ (sc : bool) (m : positive) (e : Z),
      Close !! S i = Some (S754_finite sc m e) →
      calculate_price_variation Close !! S i
      = Some (S754_infinity (xorb sc s))
      ∧ ∀ threshold : float,
          xorb sc s = false →
          lt threshold (S754_infinity false) = true →
          label_anomalies (calculate_price_variation Close) threshold !! i
          = Some Upward)
  ∧ (∀ sc : bool,
        Close !! S i = Some (S754_zero sc) →
        calculate_price_variation Close !! S i = Some nan).
Proof.
  intros Hpop Hprev. split.
  - intros sc m e Hcur.
    assert (Hpv : calculate_price_variation Close !! S i
                  = Some (S754_infinity (xorb sc s) : float)).
    { unfold calculate_price_variation.
      rewrite list_lookup_fmap,
        (pct_change_lookup_S _ _ _ _ Hpop Hcur Hprev).
      simpl. by destruct sc, s. }
    split; [done |].
    intros threshold Hsign Hfinite.
    rewrite label_anomalies_lookup.
    + cbv zeta. rewrite Hpv, Hsign. simpl.
      unfold lt, gt, neg, SFltb in *.
      by destruct threshold as [[] | [] | | [] mt et].
    + rewrite calculate_price_variation_length.
      apply lookup_lt_Some in Hcur. unfold float in *. lia.
  - intros sc Hcur. unfold calculate_price_variation.
    rewrite list_lookup_fmap,
      (pct_change_lookup_S _ _ _ _ Hpop Hcur Hprev).
    by destruct sc, s.
Qed.

Lemma price_variation_after_zero_close_witness :
  calculate_price_variation [zero; of_Z 3] !! 1
  = Some (S754_infinity false)
  ∧ label_anomalies (calculate_price_variation [zero; of_Z 3]) (of_Z 1) !! 0
    = Some Upward.
Proof.
  assert (Hpop : Forall (fun c => isna c = false) [zero; of_Z 3])
    by (repeat constructor).
  destruct (price_variation_after_zero_close [zero; of_Z 3] 0 false
              Hpop eq_refl) as [Hfinite _].
  destruct (Hfinite false 6755399441055744%positive (-51)%Z eq_refl)
    as [Hpv Hlabel].
  split; [exact Hpv |]. by apply Hlabel.
Defined.

(** X5. For any threshold, positive or not, the downward test decides
    first: a bar whose next variation passes both tests is Downward.  With
    a NaN threshold, or on a bar whose next variation is NaN, no test
    passes and the bar is Stable. *)
Theorem label_anomalies_any_threshold (Price_Variation : list float)
        (threshold : float) (i : nat) :
  i < length Price_Variation →
  let next_variation := default nan (Price_Variation !! S i) in
  ∃ label : Z,
    label_anomalies Price_Variation threshold !! i = Some label
    ∧ (lt next_variation (neg threshold) = true → label = Downward)
    ∧ (lt next_variation (neg threshold) = false →
       gt next_variation threshold = true → label = Upward)
    ∧ (lt next_variation (neg threshold) = false →
       gt next_variation threshold = false → label = Stable)
    ∧ (isna threshold = true ∨ isna next_variation = true → label = Stable).
Proof.
  intros Hi next_variation.
  eexists. split; [by apply label_anomalies_lookup |].
  cbv zeta. fold next_variation.
  destruct (lt next_variation (neg threshold)) eqn:Hdown;
    destruct (gt next_variation threshold) eqn:Hup;
    split_and!; try done.
  all: intros [Hna | Hna]; unfold lt, gt, neg, SFltb in *;
    destruct threshold as [[] | [] | | [] mt et];
    destruct next_variation as [[] | [] | | [] mx ex]; done.
Qed.

Lemma label_anomalies_any_threshold_witness :
  label_anomalies [nan; of_Z 0] (of_Z (-1)) !! 0 = Some Downward
  ∧ label_anomalies [nan; of_Z 5] nan !! 0 = Some Stable.
Proof.
  split.
  - destruct (label_anomalies_any_threshold [nan; of_Z 0] (of_Z (-1)) 0)
      as (label & Hlab & Hdown & _); [simpl; lia |].
    rewrite Hlab. f_equal. by apply Hdown.
  - destruct (label_anomalies_any_threshold [nan; of_Z 5] nan 0)
      as (label & Hlab & _ & _ & _ & Hnan); [simpl; lia |].
    rewrite Hlab. f_equal. apply Hnan. by left.
Defined.

(** The last anomaly whose window covers a row, when one does. *)
Lemma last_covering_anomaly (Anomaly : list Z) (shift_hours : Z)
      (p k : nat) :
  (∃ j : nat, j < k ∧ covers shift_hours j p
              ∧ is_anomaly Anomaly j = true) →
  ∃ j : nat, j < k ∧ covers shift_hours j p ∧ is_anomaly Anomaly j = true
             ∧ ∀ j' : nat, j < j' → j' < k → covers shift_hours j' p →
                           is_anomaly Anomaly j' = false.
Proof.
  induction k as [| k IH]; intros (j & Hj & Hcov & Han); [lia |].
  destruct (decide (covers shift_hours k p
                    ∧ is_anomaly Anomaly k = true)) as [[Hck Hak] | Hnot].
  - exists k. split_and!; [lia | done | done |]. intros j' ? ?. lia.
  - assert (Hlt : j < k).
    { destruct (decide (j = k)) as [-> | ?]; [| lia].
      destruct Hnot. by split. }
    destruct IH as (j0 & Hj0 & Hc0 & Ha0 & Hmax); [by exists j |].
    exists j0. split_and!; [lia | done | done |].
    intros j' Hgt Hlt' Hcov'.
    destruct (decide (j' = k)) as [-> | ?].
    + destruct (is_anomaly Anomaly k) eqn:Hk; [| done].
      destruct Hnot. by split.
    + apply Hmax; [done | lia | done].
Qed.

(** X6. Curve shifting labels every row of the window of an anomaly: a
    row at most [shift_hours] rows above an anomaly ends with a positive
    label, the one of the last anomaly whose window reaches it. *)
Theorem curve_shifting_fills_windows (Anomaly : list Z) (shift_hours : Z)
        (j p : nat) (label : Z) :
  Anomaly !! j = Some label → (0 < label)%Z →
  (Z.max 0 (Z.of_nat j - shift_hours) ≤ Z.of_nat p
   ∧ Z.of_nat p ≤ Z.of_nat j)%Z →
  ∃ (last : nat) (last_label : Z),
    j ≤ last ∧ covers shift_hours last p
    ∧ Anomaly !! last = Some last_label ∧ (0 < last_label)%Z
    ∧ (∀ j' : nat, last < j' → covers shift_hours j' p →
                   is_anomaly Anomaly j' = false)
    ∧ apply_curve_shifting Anomaly shift_hours !! p = Some last_label.
Proof.
  intros Hj Hpos Hcov.
  assert (Hjn : j < length Anomaly) by (by apply lookup_lt_Some in Hj).
  destruct (last_covering_anomaly Anomaly shift_hours p (length Anomaly))
    as (last & Hlast & Hc & Ha & Hmax).
  { exists j. split_and!; [done | done |].
    by apply (is_anomaly_true Anomaly j label). }
  unfold is_anomaly in Ha.
  destruct (Anomaly !! last) as [last_label |] eqn:Hl; [| done].
  simpl in Ha. apply bool_decide_eq_true in Ha.
  assert (Hbeyond : ∀ j' : nat, last < j' → covers shift_hours j' p →
                                is_anomaly Anomaly j' = false).
  { intros j' Hgt Hcov'.
    destruct (decide (j' < length Anomaly)) as [Hin | Hout];
      [by apply Hmax |].
    unfold is_anomaly. by rewrite lookup_ge_None_2 by lia. }
  exists last, last_label. split_and!; try done.
  - destruct (decide (j ≤ last)) as [? | Hgt]; [done |].
    pose proof (Hbeyond j ltac:(lia) Hcov) as Hfalse.
    by rewrite (is_anomaly_true Anomaly j label Hj Hpos) in Hfalse.
  - destruct (apply_curve_shifting_cover Anomaly shift_hours)
      as (_ & Hwin & _).
    apply (Hwin last p last_label); [done | done | done | done |].
    intros j' ? _ ?. by apply Hbeyond.
Qed.

Lemma curve_shifting_fills_windows_witness :
  apply_curve_shifting [0; 0; 0; 1; 0; 2; 0]%Z 2 !! 1 = Some 1%Z
  ∧ apply_curve_shifting [0; 0; 0; 1; 0; 2; 0]%Z 2 !! 3 = Some 2%Z.
Proof.
  split.
  - destruct (curve_shifting_fills_windows [0; 0; 0; 1; 0; 2; 0]%Z 2 3 1 1
                eq_refl ltac:(lia) ltac:(lia))
      as (last & last_label & Hge & Hcov & Hl & _ & _ & Hres).
    destruct Hcov as [Hlo Hhi].
    assert (last = 3) as -> by lia.
    injection Hl as <-. exact Hres.
  - destruct (curve_shifting_fills_windows [0; 0; 0; 1; 0; 2; 0]%Z 2 3 3 1
                eq_refl ltac:(lia) ltac:(lia))
      as (last & last_label & Hge & Hcov & Hl & Hpos & Hmax & Hres).
    rewrite Hres. f_equal.
    destruct (decide (last = 5)) as [-> | Hne].
    + by injection Hl as <-.
    + exfalso. destruct Hcov as [Hlo Hhi].
      assert (Hlast : last = 3 ∨ last = 4) by lia.
      destruct Hlast as [-> | ->].
      * discriminate (Hmax 5 ltac:(lia) ltac:(unfold covers; lia)).
      * injection Hl as <-. lia.
Defined.

(** X7. Curve shifting changes covered rows only: a row that the window of
    no anomaly reaches keeps its label, so a column without any positive
    label comes back as it is. *)
Theorem curve_shifting_untouched (Anomaly : list Z) (shift_hours : Z) :
  (∀ p : nat,
      (∀ j : nat, covers shift_hours j p → is_anomaly Anomaly j = false) →
      apply_curve_shifting Anomaly shift_hours !! p = Anomaly !! p)
  ∧ ((∀ j : nat, is_anomaly Anomaly j = false) →
     apply_curve_shifting Anomaly shift_hours = Anomaly).
Proof.
  destruct (apply_curve_shifting_cover Anomaly shift_hours)
    as (_ & _ & Hnone).
  split.
  - intros p Hp. apply Hnone. intros j _ Hcov. by apply Hp.
  - intros Hno. apply list_eq. intros p.
    apply Hnone. intros j _ _. apply Hno.
Qed.

(** Row [p] has, in the column the resolver receives, a neighbour with a
    different non-stable label. *)
Definition conflicting_neighbour (Anomaly : list Z) (p : nat) : Prop :=
  ∃ (q : nat) (x y : Z),
    (q + 1 = p ∨ q = p + 1)
    ∧ Anomaly !! p = Some x ∧ Anomaly !! q = Some y
    ∧ x ≠ Stable ∧ y ≠ Stable ∧ x ≠ y.

Lemma resolve_prefix_rows (Anomaly : list Z) (m p : nat) :
  foldl resolve_step Anomaly (seq 1 m) !! p = Anomaly !! p
  ∨ (foldl resolve_step Anomaly (seq 1 m) !! p = Some Stable
     ∧ conflicting_neighbour Anomaly p).
Proof.
  revert p. induction m as [| m IH]; intros p; [by left |].
  rewrite seq_S, foldl_app. simpl.
  set (st := foldl resolve_step Anomaly (seq 1 m)) in *.
  destruct (interleaved st (S m)) eqn:Hconf.
  - destruct (interleaved_lookup st (S m) Hconf)
      as (cur & prev & Hcur & Hprev & Hc0 & Hp0 & Hdiff).
    destruct (resolve_step_conflict st (S m) Hconf) as [Hz Hzp].
    replace (S m - 1) with m in * by lia.
    assert (Hcur' : Anomaly !! S m = Some cur).
    { rewrite <- Hcur. unfold st. symmetry.
      apply foldl_resolve_step_lookup_above.
      apply Forall_forall. intros j Hj. apply elem_of_seq in Hj. lia. }
    assert (Hprev' : Anomaly !! m = Some prev).
    { destruct (IH m) as [Heq | [Heq _]]; [congruence |].
      rewrite Hprev in Heq. by injection Heq as ->. }
    destruct (decide (p = S m)) as [-> | Hne1].
    + right. split; [done |].
      exists m, cur, prev. split_and!; try done. left. lia.
    + destruct (decide (p = m)) as [-> | Hne2].
      * right. split; [done |].
        exists (S m), prev, cur. split_and!; try done. right. lia.
      * rewrite resolve_step_lookup_other by lia. apply IH.
  - rewrite resolve_step_no_conflict by done. apply IH.
Qed.

(** X8. The resolver writes nothing but Stable, and only where it has to:
    every row of its result either holds its label of before, or is Stable
    and had, in the column received, a neighbour with a different
    non-stable label.  A column without a conflicting adjacent pair comes
    back as it is. *)
Theorem resolver_clears_conflicts_only (Anomaly : list Z) :
  (∀ p : nat,
      handle_interleaved_anomalies Anomaly !! p = Anomaly !! p
      ∨ (handle_interleaved_anomalies Anomaly !! p = Some Stable
         ∧ ∃ (q : nat) (x y : Z),
             (q + 1 = p ∨ q = p + 1)
             ∧ Anomaly !! p = Some x ∧ Anomaly !! q = Some y
             ∧ x ≠ Stable ∧ y ≠ Stable ∧ x ≠ y))
  ∧ ((∀ i : nat, interleaved Anomaly i = false) →
     handle_interleaved_anomalies Anomaly = Anomaly).
Proof.
  split.
  - intros p. apply (resolve_prefix_rows Anomaly (length Anomaly - 1) p).
  - intros Hnone. apply foldl_resolve_step_id.
    apply Forall_forall. intros i _. apply Hnone.
Qed.

(** X9. Whatever the closes, the threshold and the shift, the four steps
    give one label per bar, each of them Stable, Upward or Downward, and
    the last bar is Stable. *)
Theorem label_pipeline_labels (Close : list float) (threshold : float)
        (shift_hours : Z) :
  length (label_pipeline Close threshold shift_hours) = length Close
  ∧ (∀ (i : nat) (label : Z),
        label_pipeline Close threshold shift_hours !! i = Some label →
        label = Stable ∨ label = Upward ∨ label = Downward)
  ∧ (0 < length Close →
     label_pipeline Close threshold shift_hours !! (length Close - 1)
     = Some Stable).
Proof.
  unfold label_pipeline.
  set (pv := calculate_price_variation Close).
  set (classified := label_anomalies pv threshold).
  set (shifted := apply_curve_shifting classified shift_hours).
  destruct (apply_curve_shifting_inv classified shift_hours)
    as (Hlen & _ & Hsrc). fold shifted in Hlen, Hsrc.
  assert (Hn : length classified = length Close).
  { unfold classified, pv.
    by rewrite label_anomalies_length, calculate_price_variation_length. }
  assert (Hrange : ∀ (k : nat) (label : Z),
             classified !! k = Some label →
             label = Stable ∨ label = Upward ∨ label = Downward).
  { intros k label Hk.
    assert (Hlt : k < length pv).
    { apply lookup_lt_Some in Hk. unfold classified in Hk.
      by rewrite label_anomalies_length in Hk. }
    unfold classified in Hk.
    rewrite (label_anomalies_lookup pv threshold k Hlt) in Hk.
    injection Hk as <-. cbv zeta.
    destruct (lt _ _); [by right; right |].
    destruct (gt _ _); [by right; left | by left]. }
  split_and!.
  - by rewrite handle_interleaved_anomalies_length, Hlen.
  - intros i label Hi.
    destruct (resolve_prefix_rows shifted (length shifted - 1) i)
      as [Hsame | [Hzero _]].
    + unfold handle_interleaved_anomalies in Hi. rewrite Hsame in Hi.
      destruct (Hsrc i label Hi) as [Hown | (j & _ & _ & _ & Hj & _)];
        by eapply Hrange.
    + unfold handle_interleaved_anomalies in Hi. rewrite Hzero in Hi.
      left. by injection Hi as <-.
  - intros Hpos.
    set (p := length Close - 1).
    assert (Hlast : classified !! p = Some Stable).
    { unfold classified.
      rewrite label_anomalies_lookup
        by (unfold pv; rewrite calculate_price_variation_length;
            unfold p; lia).
      rewrite (lookup_ge_None_2 pv (S p))
        by (unfold pv; rewrite calculate_price_variation_length;
            unfold p; lia).
      simpl. unfold gt, lt, SFltb. simpl.
      by destruct threshold as [[] | [] | | [] mt et]. }
    assert (Hshift : shifted !! p = Some Stable).
    { destruct (apply_curve_shifting_cover classified shift_hours)
        as (_ & _ & Hnone). fold shifted in Hnone.
      rewrite Hnone; [done |].
      intros j Hj [_ Hhi].
      assert (j = p) as -> by (unfold p in *; lia).
      unfold is_anomaly. by rewrite Hlast. }
    destruct (resolve_prefix_rows shifted (length shifted - 1) p)
      as [Hsame | [Hzero _]].
    + unfold handle_interleaved_anomalies. by rewrite Hsame.
    + done.
Qed.

(** ** More on the file loops *)




(** X12. The loop of the indicator stage reads [df_clean] whether or not
    the file at hand gave a frame.  When the very first file fails, the run
    ends with nothing written, whatever follows.  When a file fails after
    one that succeeded, the cleaned frame of that earlier file is written
    once more, under the name of the failing file. *)
Theorem indicator_main_stale_frame
        (to_datetime : column → option column)
        (indicators : string → DataFrame → option DataFrame)
        (path1 path2 : string) (df1 df2 out1 : DataFrame)
        (rest : list (string * DataFrame)) :
  IndicatorStage.process_file to_datetime indicators df2 = None →
  IndicatorStage.main to_datetime indicators ((path2, df2) :: rest) = []
  ∧ (IndicatorStage.process_file to_datetime indicators df1 = Some out1 →
     IndicatorStage.main to_datetime indicators
       ((path1, df1) :: (path2, df2) :: rest)
     = (basename path1, dropna out1)
       :: (basename path2, dropna out1)
       :: IndicatorStage.main_loop to_datetime indicators
            (Some (dropna out1)) rest).
Proof.
  intros Hfail. unfold IndicatorStage.main. split.
  - simpl. by rewrite Hfail.
  - intros Hok. simpl. by rewrite Hok, Hfail.
Qed.

Lemma indicator_main_stale_frame_witness :
  let good : DataFrame := [("Close", Float64Col [of_Z 1; nan])] in
  let bad : DataFrame := [("Date", ObjectCol [Some "x"])] in
  IndicatorStage.main (fun _ => None) (fun _ d => Some d)
    [("in/a.csv", good); ("in/b.csv", bad)]
  = [("a.csv", [("Close", Float64Col [of_Z 1])]);
     ("b.csv", [("Close", Float64Col [of_Z 1])])].
Proof.
  apply (indicator_main_stale_frame (fun _ => None) (fun _ d => Some d)
           "in/a.csv" "in/b.csv"
           [("Close", Float64Col [of_Z 1; nan])]
           [("Date", ObjectCol [Some "x"])]
           [("Close", Float64Col [of_Z 1; nan])] [] eq_refl).
  reflexivity.
Defined.

(** ** Tables without missing values *)

(** No cell of the table is missing. *)
Definition complete (df : DataFrame) : Prop :=
  ∀ (name : string) (c : column) (r : nat),
    get_column name df = Some c → cell_isna c r = false.

Lemma select_rows_lookup {A : Type} (mask : list bool) (v : list A)
      (r : nat) (x : A) :
  select_rows mask v !! r = Some x →
  ∃ i : nat, mask !! i = Some true ∧ v !! i = Some x.
Proof.
  revert v r. induction mask as [| m ms IH]; intros [| y ys] r Hr;
    simpl in Hr; try done.
  destruct m.
  - destruct r as [| r]; simpl in Hr.
    + injection Hr as <-. by exists 0.
    + destruct (IH ys r Hr) as (i & Hm & Hv). by exists (S i).
  - destruct (IH ys r Hr) as (i & Hm & Hv). by exists (S i).
Qed.

Lemma notna_rows_lookup (df : DataFrame) (i : nat) (name : string)
      (c : column) :
  notna_rows df !! i = Some true → get_column name df = Some c →
  cell_isna c i = false.
Proof.
  unfold notna_rows. intros Hmask Hc.
  rewrite list_lookup_fmap in Hmask.
  destruct (seq 0 (nrows df) !! i) as [k |] eqn:Hk; [| done].
  apply lookup_seq in Hk as [-> _]. simpl in Hmask.
  injection Hmask as Hrow. apply negb_true_iff in Hrow.
  destruct (cell_isna c i) eqn:Hcell; [| done].
  assert (Hex : row_isna df i = true); [| congruence].
  unfold row_isna. apply existsb_exists. exists (name, c).
  split; [| done]. apply list_elem_of_In. by apply get_column_elem_of.
Qed.

Lemma dropna_complete (df : DataFrame) : complete (dropna df).
Proof.
  intros name c' r Hc'. rewrite get_column_dropna in Hc'.
  destruct (get_column name df) as [c |] eqn:Hc; [| done].
  injection Hc' as <-.
  destruct c as [v | v | v]; simpl; [| done |].
  - destruct (select_rows (notna_rows df) v !! r) as [x |] eqn:Hx; [| done].
    destruct (select_rows_lookup _ _ _ _ Hx) as (i & Hm & Hv).
    pose proof (notna_rows_lookup df i name _ Hm Hc) as Hcell.
    simpl in Hcell. by rewrite Hv in Hcell.
  - apply bool_decide_eq_false. intros Hx.
    destruct (select_rows_lookup _ _ _ _ Hx) as (i & Hm & Hv).
    pose proof (notna_rows_lookup df i name _ Hm Hc) as Hcell.
    simpl in Hcell. by apply bool_decide_eq_false in Hcell.
Qed.

Lemma indicator_main_loop_complete
      (to_datetime : column → option column)
      (indicators : string → DataFrame → option DataFrame)
      (csv_files : list (string * DataFrame)) (df_clean : option DataFrame) :
  (∀ d : DataFrame, df_clean = Some d → complete d) →
  ∀ (file_name : string) (out : DataFrame),
    (file_name, out)
    ∈ IndicatorStage.main_loop to_datetime indicators df_clean csv_files →
    complete out.
Proof.
  revert df_clean.
  induction csv_files as [| [file_path df] rest IH];
    intros df_clean Hclean file_name out Hin; simpl in Hin.
  - by apply elem_of_nil in Hin.
  - destruct (IndicatorStage.process_file to_datetime indicators df)
      as [df_processed |].
    + apply elem_of_cons in Hin as [[= _ ->] | Hin];
        [apply dropna_complete |].
      apply (IH (Some (dropna df_processed))) with file_name; [| done].
      intros d [= <-]. apply dropna_complete.
    + destruct df_clean as [d |]; [| by apply elem_of_nil in Hin].
      apply elem_of_cons in Hin as [[= _ ->] | Hin]; [by apply Hclean |].
      by apply (IH (Some d)) with file_name.
Qed.

(** X13. Every table the indicator stage writes is free of missing values,
    whatever the indicator computation returned: each column of each
    written file has a value in every row. *)
Theorem indicator_main_writes_complete_tables
        (to_datetime : column → option column)
        (indicators : string → DataFrame → option DataFrame)
        (csv_files : list (string * DataFrame)) :
  ∀ (file_name : string) (out : DataFrame),
    (file_name, out)
    ∈ IndicatorStage.main to_datetime indicators csv_files →
    ∀ (name : string) (c : column) (r : nat),
      get_column name out = Some c → cell_isna c r = false.
Proof.
  intros file_name out Hin.
  apply (indicator_main_loop_complete to_datetime indicators csv_files None
           ltac:(done) file_name out Hin).
Qed.

Lemma indicator_main_writes_complete_tables_witness :
  get_column "Close"
    (dropna [("Close", Float64Col [nan; of_Z 2; of_Z 3]);
             ("SMA_2", Float64Col [nan; nan; of_Z 2])])
  = Some (Float64Col [of_Z 3])
  ∧ cell_isna (Float64Col [of_Z 3]) 0 = false.
Proof.
  split; [reflexivity |].
  apply (indicator_main_writes_complete_tables
           (fun _ => None) (fun _ d => Some d)
           [("in/a.csv", [("Close", Float64Col [nan; of_Z 2; of_Z 3]);
                          ("SMA_2", Float64Col [nan; nan; of_Z 2])])]
           "a.csv"
           (dropna [("Close", Float64Col [nan; of_Z 2; of_Z 3]);
                    ("SMA_2", Float64Col [nan; nan; of_Z 2])])
           ltac:(by left) "Close" (Float64Col [of_Z 3]) 0 eq_refl).
Defined.

(** X14. [compute_percent_variation] fails or returns a table without any
    missing value and with the columns of its input next to their
    companions: neither the missing first row of a percent change nor the
    NaN of a division of zero by zero stays in the table.  (An infinite
    change, from a division of a non-zero value by zero, is not a missing
    value and stays.) *)
Theorem percent_variation_complete (df out : DataFrame)
        (exclude_columns : list string) :
  compute_percent_variation df exclude_columns = Some out →
  (∀ (name : string) (c : column) (r : nat),
      get_column name out = Some c → cell_isna c r = false)
  ∧ (∀ name : string,
        name ∈ columns out
        ↔ name ∈ columns df
          ∨ ∃ col : string,
              col ∈ columns df ∧ (col ∉ exclude_columns)
              ∧ name = col +:+ "_pct_change").
Proof.
  unfold compute_percent_variation. intros Hout.
  destruct (add_pct_changes df _) as [with_pct |] eqn:Hpct; [| done].
  injection Hout as <-. split.
  - apply dropna_complete.
  - intros name. rewrite columns_dropna.
    destruct (add_pct_changes_spec _ _ _ Hpct) as (Hnames & _).
    rewrite Hnames. split.
    + intros [Hin | (col & Hcol & ->)]; [by left |].
      apply list_elem_of_filter in Hcol as [Hex Hcol].
      right. by exists col.
    + intros [Hin | (col & Hcol & Hex & ->)]; [by left |].
      right. exists col. split; [| done]. by apply list_elem_of_filter.
Qed.

Lemma percent_variation_complete_witness :
  ∃ out : DataFrame,
    compute_percent_variation
      [("Close", Float64Col [of_Z 0; of_Z 0; of_Z 4; of_Z 5])] []
    = Some out
    ∧ out = [("Close", Float64Col [of_Z 4; of_Z 5]);
             ("Close_pct_change",
              Float64Col [S754_infinity false;
                          S754_finite false 4503599627370496 (-54)])]
    ∧ cell_isna (Float64Col [of_Z 4; of_Z 5]) 0 = false.
Proof.
  eexists. split; [vm_compute; reflexivity |].
  split; [vm_compute; reflexivity |].
  apply (proj1 (percent_variation_complete
                  [("Close", Float64Col [of_Z 0; of_Z 0; of_Z 4; of_Z 5])]
                  [("Close", Float64Col [of_Z 4; of_Z 5]);
                   ("Close_pct_change",
                    Float64Col [S754_infinity false;
                                S754_finite false 4503599627370496 (-54)])]
                  [] ltac:(vm_compute; reflexivity))
           "Close" (Float64Col [of_Z 4; of_Z 5]) 0).
  reflexivity.
Defined.

(** X15. The transformation stage passes over every file whose path
    contains [full_data], whatever the file holds: nothing is written for
    it and the other files are handled as if it were not there. *)
Theorem transformation_main_skips_full_data
        (to_datetime : column → option column)
        (robust_scale : list float → list float)
        (before after : list (string * DataFrame))
        (file_path : string) (df : DataFrame) :
  contains "full_data" file_path = true →
  TransformationStage.main to_datetime robust_scale
    (before ++ (file_path, df) :: after)
  = TransformationStage.main to_datetime robust_scale before
    ++ TransformationStage.main to_datetime robust_scale after.
Proof.
  intros Hfull. rewrite transformation_main_app. f_equal. simpl.
  by rewrite Hfull.
Qed.

Lemma transformation_main_skips_full_data_witness :
  contains "full_data" "data/with_indicators/full_data.csv" = true
  ∧ TransformationStage.main Some (fun v => v)
      [("data/with_indicators/full_data.csv", sample_table)]
    = [].
Proof.
  assert (Hfull : contains "full_data" "data/with_indicators/full_data.csv"
                  = true) by reflexivity.
  split; [exact Hfull |].
  apply (transformation_main_skips_full_data Some (fun v => v) [] []
           "data/with_indicators/full_data.csv" sample_table Hfull).
Defined.

(** ** The resolver on an alternating chain *)

(** C2, as the code has it.  The resolver is one pass over rows
    [1 .. n-1] in ascending order, each comparison reading the column as
    the iterations before it left it.  Take labels A, B, A (non-stable, A
    different from B) on rows [i-1], [i], [i+1] of the column received.
    When the pass reaches row [i], rows [i] and [i+1] are as received and
    row [i-1] holds A or has been set to Stable by the comparison before;
    it holds A when [i = 1] or when row [i-2] was received Stable or
    holding A.  If row [i-1] holds A, iteration [i] sets rows [i-1] and
    [i] to Stable, and iteration [i+1] compares row [i+1] with the Stable
    row [i], finds no conflict and changes nothing; row [i+1] then holds A
    in the result when there is no row [i+2] or that row was received
    Stable or holding A, and is Stable when row [i+2] was received with
    another non-stable label.  If row [i-1] is Stable already, iteration
    [i] changes nothing and iteration [i+1] finds rows [i] and [i+1] in
    conflict: both are Stable in the result. *)
Theorem resolver_sequential_mutation (Anomaly : list Z) (i : nat) (A B : Z) :
  let reached := foldl resolve_step Anomaly (seq 1 (i - 1)) in
  let after_i := resolve_step reached i in
  let after_next := resolve_step after_i (S i) in
  let resolved := handle_interleaved_anomalies Anomaly in
  0 < i →
  Anomaly !! (i - 1) = Some A →
  Anomaly !! i = Some B → Anomaly !! S i = Some A →
  A ≠ Stable → B ≠ Stable → A ≠ B →
  resolved
  = foldl resolve_step after_next (seq (S (S i)) (length Anomaly - S (S i)))
  ∧ reached !! i = Some B ∧ reached !! S i = Some A
  ∧ (reached !! (i - 1) = Some A ∨ reached !! (i - 1) = Some Stable)
  ∧ (i = 1 ∨ Anomaly !! (i - 2) = Some Stable
     ∨ Anomaly !! (i - 2) = Some A →
     reached !! (i - 1) = Some A)
  ∧ (reached !! (i - 1) = Some A →
     after_i !! (i - 1) = Some Stable
     ∧ after_i !! i = Some Stable
     ∧ interleaved after_i (S i) = false
     ∧ after_next = after_i
     ∧ after_next !! S i = Some A
     ∧ (Anomaly !! S (S i) = None ∨ Anomaly !! S (S i) = Some Stable
        ∨ Anomaly !! S (S i) = Some A →
        resolved !! S i = Some A)
     ∧ (∀ C : Z,
           Anomaly !! S (S i) = Some C → C ≠ Stable → C ≠ A →
           resolved !! S i = Some Stable))
  ∧ (reached !! (i - 1) = Some Stable →
     after_i = reached
     ∧ interleaved after_i (S i) = true
     ∧ resolved !! i = Some Stable
     ∧ resolved !! S i = Some Stable).
Proof.
  intros reached after_i after_next resolved Hi HprevA HcurB HnextA
         HA HB HAB.
  assert (Hbelow : Forall (fun j => j < i) (seq 1 (i - 1))).
  { apply Forall_forall. intros j Hj. apply elem_of_seq in Hj. lia. }
  assert (Hcur : reached !! i = Some B).
  { unfold reached. by rewrite foldl_resolve_step_lookup_above. }
  assert (Hnext : reached !! S i = Some A).
  { unfold reached. rewrite foldl_resolve_step_lookup_above; [done |].
    eapply Forall_impl; [exact Hbelow |]. simpl. lia. }
  assert (Hnext2 : reached !! S (S i) = Anomaly !! S (S i)).
  { unfold reached. apply foldl_resolve_step_lookup_above.
    eapply Forall_impl; [exact Hbelow |]. simpl. lia. }
  assert (Hlen : S i < length Anomaly)
    by (by apply lookup_lt_Some in HnextA).
  assert (Hsplit : resolved
            = foldl resolve_step after_next
                (seq (S (S i)) (length Anomaly - S (S i)))).
  { unfold resolved.
    rewrite (handle_interleaved_anomalies_split Anomaly i) by lia.
    fold reached. fold after_i.
    replace (length Anomaly - S i) with (S (length Anomaly - S (S i)))
      by lia.
    reflexivity. }
  assert (Hcases : reached !! (i - 1) = Some A
                   ∨ reached !! (i - 1) = Some Stable).
  { destruct (resolve_prefix_rows Anomaly (i - 1) (i - 1)) as [Heq | [Heq _]].
    - left. unfold reached. by rewrite Heq.
    - by right. }
  split_and!; try done.
  - (* when row [i - 1] is sure to hold A *)
    intros Hfree.
    destruct (decide (i = 1)) as [-> | Hne]; [done |].
    destruct Hfree as [? | Hfree]; [done |].
    assert (Hseq : seq 1 (i - 1) = seq 1 (i - 2) ++ [i - 1]).
    { replace (i - 1) with (S (i - 2)) by lia. by rewrite seq_S. }
    unfold reached. rewrite Hseq, foldl_app. simpl.
    set (st0 := foldl resolve_step Anomaly (seq 1 (i - 2))).
    assert (Hst0 : st0 !! (i - 1) = Some A).
    { unfold st0. rewrite foldl_resolve_step_lookup_above; [done |].
      apply Forall_forall. intros j Hj. apply elem_of_seq in Hj. lia. }
    assert (Hquiet : interleaved st0 (i - 1) = false).
    { unfold interleaved. rewrite Hst0.
      replace (i - 1 - 1) with (i - 2) by lia.
      destruct (resolve_prefix_rows Anomaly (i - 2) (i - 2))
        as [Heq | [Heq _]]; fold st0 in Heq; rewrite Heq.
      - destruct Hfree as [-> | ->].
        + by rewrite andb_false_r.
        + rewrite (bool_decide_eq_false_2 (A ≠ A)) by (by intros ?).
          by rewrite andb_false_r.
      - by rewrite andb_false_r. }
    by rewrite resolve_step_no_conflict.
  - (* row [i - 1] holds A *)
    intros Hprev.
    assert (Hconf : interleaved reached i = true).
    { unfold interleaved. rewrite Hcur, Hprev.
      by rewrite !bool_decide_eq_true_2. }
    destruct (resolve_step_conflict reached i Hconf) as [Hz Hzp].
    assert (Hquiet : interleaved after_i (S i) = false).
    { apply interleaved_stable_prev.
      by replace (S i - 1) with i by lia. }
    assert (Hsame : after_next = after_i)
      by (by apply resolve_step_no_conflict).
    assert (Hkept : after_next !! S i = Some A).
    { rewrite Hsame. unfold after_i.
      rewrite resolve_step_lookup_other by lia. done. }
    assert (Hrow2 : after_next !! S (S i) = Anomaly !! S (S i)).
    { rewrite Hsame. unfold after_i.
      rewrite resolve_step_lookup_other by lia. done. }
    assert (Hlater : ∀ st : list Z,
              foldl resolve_step st
                (seq (S (S (S i))) (length Anomaly - S (S (S i)))) !! S i
              = st !! S i).
    { intros st. apply foldl_resolve_step_lookup_below.
      apply Forall_forall. intros j Hj. apply elem_of_seq in Hj. lia. }
    split_and!; try done.
    + intros Hfree. rewrite Hsplit.
      destruct (decide (length Anomaly = S (S i))) as [Hlast | Hmore].
      * rewrite Hlast, Nat.sub_diag. done.
      * replace (length Anomaly - S (S i))
          with (S (length Anomaly - S (S (S i)))) by lia.
        simpl. rewrite Hlater.
        assert (Hnone : interleaved after_next (S (S i)) = false).
        { unfold interleaved. rewrite Hrow2.
          replace (S (S i) - 1) with (S i) by lia. rewrite Hkept.
          destruct Hfree as [-> | [-> | ->]]; [done | done |].
          rewrite (bool_decide_eq_false_2 (A ≠ A)) by (by intros ?).
          by rewrite andb_false_r. }
        by rewrite resolve_step_no_conflict.
    + intros C HC HC0 HCA. rewrite Hsplit.
      assert (Hmore : S (S i) < length Anomaly)
        by (by apply lookup_lt_Some in HC).
      replace (length Anomaly - S (S i))
        with (S (length Anomaly - S (S (S i)))) by lia.
      simpl. apply foldl_resolve_step_stable.
      assert (Hhit : interleaved after_next (S (S i)) = true).
      { unfold interleaved. rewrite Hrow2, HC.
        replace (S (S i) - 1) with (S i) by lia. rewrite Hkept.
        by rewrite !bool_decide_eq_true_2. }
      destruct (resolve_step_conflict after_next (S (S i)) Hhit)
        as [_ Hzero].
      by replace (S (S i) - 1) with (S i) in Hzero by lia.
  - (* row [i - 1] is Stable already *)
    intros Hprev.
    assert (Hquiet : interleaved reached i = false)
      by (by apply interleaved_stable_prev).
    assert (Hsame : after_i = reached)
      by (by apply resolve_step_no_conflict).
    assert (Hhit : interleaved after_i (S i) = true).
    { rewrite Hsame. unfold interleaved. rewrite Hnext.
      replace (S i - 1) with i by lia. rewrite Hcur.
      rewrite !bool_decide_eq_true_2; [done | by intros ? | done | done]. }
    destruct (resolve_step_conflict after_i (S i) Hhit) as [Hz Hzp].
    replace (S i - 1) with i in Hzp by lia.
    split_and!; [done | done | |];
      rewrite Hsplit; by apply foldl_resolve_step_stable.
Qed.

Lemma resolver_sequential_mutation_witness :
  handle_interleaved_anomalies [1; 2; 1]%Z = [0; 0; 1]%Z
  ∧ handle_interleaved_anomalies [1; 2; 1]%Z !! 2 = Some 1%Z.
Proof.
  split; [reflexivity |].
  assert (H1 : (1 : Z) ≠ Stable) by discriminate.
  assert (H2 : (2 : Z) ≠ Stable) by discriminate.
  assert (H12 : (1 : Z) ≠ 2%Z) by discriminate.
  destruct (resolver_sequential_mutation [1; 2; 1]%Z 1 1 2
              ltac:(lia) eq_refl eq_refl eq_refl H1 H2 H12)
    as (_ & _ & _ & _ & Hfirst & Hchain & _).
  destruct (Hchain (Hfirst ltac:(by left)))
    as (_ & _ & _ & _ & _ & Hkeeps & _).
  apply Hkeeps. by left.
Defined.

(** Two alternating columns of four rows.  In [1, 2, 1, 2] the chain on
    rows 0 to 2 is found whole, and row 2 is Stable in the result all the
    same.  In [2, 1, 2, 1] the chain on rows 1 to 3 is reached with row 1
    already Stable: its first pair is left alone and its second pair is
    the one found in conflict. *)
Lemma alternating_chain_cleared :
  handle_interleaved_anomalies [1; 2; 1; 2]%Z = [0; 0; 0; 0]%Z
  ∧ handle_interleaved_anomalies [1; 2; 1; 2]%Z !! 2 = Some Stable
  ∧ foldl resolve_step [2; 1; 2; 1]%Z (seq 1 1) = [0; 0; 2; 1]%Z
  ∧ interleaved [0; 0; 2; 1]%Z 2 = false
  ∧ interleaved [0; 0; 2; 1]%Z 3 = true
  ∧ handle_interleaved_anomalies [2; 1; 2; 1]%Z = [0; 0; 0; 0]%Z.
Proof. split_and!; reflexivity. Qed.
